(** * knowledge-bot: the Slack slash-command server of [src/server.js]

    A shallow embedding of the request authenticator
    ([verifySlackSignature]) and of the knowledge-base search
    ([SessionBoardSearch]), together with the properties the
    specification states about them.

    JavaScript strings are sequences of UTF-16 code units: they are
    modelled as [list N], one number per code unit.  Buffers are
    [list byte].  Indices and lengths that the source computes with
    ([indexOf], [Math.max], [substring]) are integers in [Z], because
    [indexOf] answers [-1].  What the source gets from the platform and
    from the outside world (the coercion of a string to a number, UTF-8
    decoding, [URLSearchParams], [toLowerCase], cheerio's reading of a
    page, the network) stays a parameter of the model; SHA-256, HMAC
    and UTF-8 encoding are written out. *)

From Stdlib Require Import ZArith List Lia String Ascii Bool QArith Qabs.
From Stdlib Require Import DecimalString.
From Stdlib.Strings Require Import Byte.
From stdpp Require Import base list gmap.

Local Open Scope Z_scope.

(** ** The part of the JavaScript string library the source calls *)

Module JS.

Abbreviation jsstring := (list N).

(** A string literal of the source, one code unit per character. *)
Definition lit (s : string) : jsstring :=
  map N_of_ascii (list_ascii_of_string s).

(** [s.length] *)
Definition len (s : jsstring) : Z := Z.of_nat (length s).

(** [s.startsWith(p)] *)
Fixpoint startsWith (s p : jsstring) : bool :=
  match p, s with
  | [], _ => true
  | _ :: _, [] => false
  | a :: p', b :: s' => if N.eqb a b then startsWith s' p' else false
  end.

(** [s.includes(q)]: some position of [s] starts a copy of [q]. *)
Fixpoint includes (s q : jsstring) : bool :=
  startsWith s q ||
  match s with
  | [] => false
  | _ :: s' => includes s' q
  end.

(** [s.indexOf(q)], counted from position [i] of the whole string:
    the first position that starts a copy of [q], or [-1]. *)
Fixpoint indexOf_from (s q : jsstring) (i : Z) : Z :=
  if startsWith s q then i
  else match s with
       | [] => -1
       | _ :: s' => indexOf_from s' q (i + 1)
       end.

Definition indexOf (s q : jsstring) : Z := indexOf_from s q 0.

(** [s.split(sep)] for a separator of one code unit.  The empty string
    splits into one empty piece; two separators in a row, or one at
    either end, leave an empty piece. *)
Fixpoint split (sep : N) (s : jsstring) : list jsstring :=
  match s with
  | [] => [[]]
  | c :: s' =>
      if N.eqb c sep then [] :: split sep s'
      else match split sep s' with
           | w :: ws => (c :: w) :: ws
           | [] => [[c]]
           end
  end.

(** [s.substring(start, end)]: both indices are clamped to
    [0 .. s.length] and swapped when [start > end]. *)
Definition clamp (n x : Z) : Z := Z.min (Z.max x 0) n.

Definition substring (s : jsstring) (start end_ : Z) : jsstring :=
  let a := clamp (len s) start in
  let b := clamp (len s) end_ in
  let from := Z.min a b in
  let to := Z.max a b in
  take (Z.to_nat (to - from)) (drop (Z.to_nat from) s).

(** The code units [trim] removes: ECMAScript's WhiteSpace and
    LineTerminator. *)
Definition isWhiteSpace (c : N) : bool :=
  ((9 <=? c) && (c <=? 13) || (c =? 32) || (c =? 160) || (c =? 5760)
   || (8192 <=? c) && (c <=? 8202) || (c =? 8232) || (c =? 8233)
   || (c =? 8239) || (c =? 8287) || (c =? 12288) || (c =? 65279))%N.

Fixpoint trimStart (s : jsstring) : jsstring :=
  match s with
  | c :: s' => if isWhiteSpace c then trimStart s' else s
  | [] => []
  end.

Definition trimEnd (s : jsstring) : jsstring := rev (trimStart (rev s)).

(** [s.trim()] *)
Definition trim (s : jsstring) : jsstring := trimEnd (trimStart s).

Definition space : N := 32%N.

End JS.

Import JS.

(** ** RelevanceMatcher: [contentMatches] and [extractSnippet] *)

(** [contentMatches(content, query)], lines 169-172. *)
Definition contentMatches (content query : jsstring) : bool :=
  includes content query
  || existsb (fun word => includes content word) (split space query).

(** [extractSnippet(content, query)], lines 174-181. *)
Definition extractSnippet (content query : jsstring) : jsstring :=
  let index := indexOf content query in
  if index =? -1 then lit ""
  else
    let start := Z.max 0 (index - 100) in
    let end_ := Z.min (len content) (index + 200) in
    trim (substring content start end_) ++ lit "...".

(** ** The part of Node's [crypto] and [Buffer] the source calls *)

Module Crypto.

Abbreviation buffer := (list byte).

Definition byte_of_Z (z : Z) : byte :=
  match Byte.of_N (Z.to_N (z mod 256)) with
  | Some b => b
  | None => Byte.x00
  end.

Definition Z_of_byte (b : byte) : Z := Z.of_N (Byte.to_N b).

(** [Buffer.from(s, 'utf8')]: the UTF-8 encoding of a string of UTF-16
    code units.  A surrogate pair becomes four bytes, a lone surrogate
    the three bytes of U+FFFD. *)
Definition isHigh (c : N) : bool := ((55296 <=? c) && (c <? 56320))%N.
Definition isLow (c : N) : bool := ((56320 <=? c) && (c <? 57344))%N.

Definition utf8_1 (c : Z) : buffer := [byte_of_Z c].
Definition utf8_2 (c : Z) : buffer :=
  [byte_of_Z (192 + c / 64); byte_of_Z (128 + c mod 64)].
Definition utf8_3 (c : Z) : buffer :=
  [byte_of_Z (224 + c / 4096); byte_of_Z (128 + (c / 64) mod 64);
   byte_of_Z (128 + c mod 64)].
Definition utf8_4 (c : Z) : buffer :=
  [byte_of_Z (240 + c / 262144); byte_of_Z (128 + (c / 4096) mod 64);
   byte_of_Z (128 + (c / 64) mod 64); byte_of_Z (128 + c mod 64)].

Fixpoint utf8 (s : jsstring) : buffer :=
  match s with
  | [] => []
  | c :: s' =>
      if (c <? 128)%N then utf8_1 (Z.of_N c) ++ utf8 s'
      else if (c <? 2048)%N then utf8_2 (Z.of_N c) ++ utf8 s'
      else if isHigh c then
        match s' with
        | d :: s'' =>
            if isLow d
            then utf8_4 (65536 + (Z.of_N c - 55296) * 1024
                         + (Z.of_N d - 56320)) ++ utf8 s''
            else utf8_3 65533 ++ utf8 s'
        | [] => utf8_3 65533
        end
      else if isLow c then utf8_3 65533 ++ utf8 s'
      else utf8_3 (Z.of_N c) ++ utf8 s'
  end.

(** *** SHA-256 (FIPS 180-4) on 32-bit words held in [Z] *)

Definition w32 (x : Z) : Z := x mod 2 ^ 32.
Definition add32 (x y : Z) : Z := w32 (x + y).
Definition rotr (n x : Z) : Z :=
  Z.lor (Z.shiftr x n) (w32 (Z.shiftl x (32 - n))).
Definition not32 (x : Z) : Z := Z.lxor x (2 ^ 32 - 1).

Definition Ch (x y z : Z) : Z :=
  Z.lxor (Z.land x y) (Z.land (not32 x) z).
Definition Maj (x y z : Z) : Z :=
  Z.lxor (Z.lxor (Z.land x y) (Z.land x z)) (Z.land y z).
Definition bigSigma0 (x : Z) : Z :=
  Z.lxor (Z.lxor (rotr 2 x) (rotr 13 x)) (rotr 22 x).
Definition bigSigma1 (x : Z) : Z :=
  Z.lxor (Z.lxor (rotr 6 x) (rotr 11 x)) (rotr 25 x).
Definition smallSigma0 (x : Z) : Z :=
  Z.lxor (Z.lxor (rotr 7 x) (rotr 18 x)) (Z.shiftr x 3).
Definition smallSigma1 (x : Z) : Z :=
  Z.lxor (Z.lxor (rotr 17 x) (rotr 19 x)) (Z.shiftr x 10).

(** The round constants are the first 32 fractional bits of the cube
    roots of the first 64 primes, the initial hash value the first 32
    fractional bits of the square roots of the first 8. *)
Definition primes64 : list Z :=
  [2; 3; 5; 7; 11; 13; 17; 19; 23; 29; 31; 37; 41; 43; 47; 53;
   59; 61; 67; 71; 73; 79; 83; 89; 97; 101; 103; 107; 109; 113; 127; 131;
   137; 139; 149; 151; 157; 163; 167; 173; 179; 181; 191; 193; 197; 199;
   211; 223; 227; 229; 233; 239; 241; 251; 257; 263; 269; 271; 277; 281;
   283; 293; 307; 311].

Fixpoint cube_root_between (fuel : nat) (lo hi n : Z) : Z :=
  match fuel with
  | O => lo
  | S fuel' =>
      let mid := (lo + hi) / 2 in
      if mid * mid * mid <=? n
      then cube_root_between fuel' mid hi n
      else cube_root_between fuel' lo mid n
  end.

Definition K256 : list Z :=
  Eval vm_compute in
    map (fun p => w32 (cube_root_between 40 0 (2 ^ 36) (p * 2 ^ 96)))
        primes64.

Record hash8 : Type := Hash8 {
  ha : Z; hb : Z; hc : Z; hd : Z; he : Z; hf : Z; hg : Z; hh : Z }.

Definition H256 : hash8 :=
  Eval vm_compute in
    let f p := w32 (Z.sqrt (p * 2 ^ 64)) in
    Hash8 (f 2) (f 3) (f 5) (f 7) (f 11) (f 13) (f 17) (f 19).

(** Padding: a one bit, zero bits up to 56 modulo 64 bytes, and the
    length in bits as a 64-bit big-endian number. *)
Definition be_bytes (n : nat) (x : Z) : buffer :=
  map (fun i => byte_of_Z (Z.shiftr x (8 * Z.of_nat i))) (rev (seq 0 n)).

Definition pad (m : buffer) : buffer :=
  let l := Z.of_nat (length m) in
  let zeros := Z.to_nat ((55 - l) mod 64) in
  m ++ [Byte.x80] ++ repeat Byte.x00 zeros ++ be_bytes 8 (8 * l).

Definition be_word (bs : buffer) : Z :=
  fold_left (fun acc b => acc * 256 + Z_of_byte b) bs 0.

(** The big-endian 32-bit words of a buffer, four bytes at a time. *)
Fixpoint words (n : nat) (bs : buffer) : list Z :=
  match n with
  | O => []
  | S n' => be_word (take 4 bs) :: words n' (drop 4 bs)
  end.

(** The message schedule, from the window of the last sixteen words. *)
Fixpoint schedule (n : nat) (win : list Z) : list Z :=
  match n with
  | O => []
  | S n' =>
      let w := add32 (add32 (smallSigma1 (nth 14 win 0)) (nth 9 win 0))
                     (add32 (smallSigma0 (nth 1 win 0)) (nth 0 win 0)) in
      w :: schedule n' (tl win ++ [w])
  end.

Definition round (s : hash8) (kw : Z * Z) : hash8 :=
  let t1 := add32 (add32 (add32 (hh s) (bigSigma1 (he s)))
                         (add32 (Ch (he s) (hf s) (hg s)) (fst kw)))
                  (snd kw) in
  let t2 := add32 (bigSigma0 (ha s)) (Maj (ha s) (hb s) (hc s)) in
  Hash8 (add32 t1 t2) (ha s) (hb s) (hc s)
        (add32 (hd s) t1) (he s) (hf s) (hg s).

Definition compress (h : hash8) (block : buffer) : hash8 :=
  let w16 := words 16 block in
  let w := w16 ++ schedule 48 w16 in
  let s := fold_left round (combine K256 w) h in
  Hash8 (add32 (ha h) (ha s)) (add32 (hb h) (hb s))
        (add32 (hc h) (hc s)) (add32 (hd h) (hd s))
        (add32 (he h) (he s)) (add32 (hf h) (hf s))
        (add32 (hg h) (hg s)) (add32 (hh h) (hh s)).

Fixpoint blocks (n : nat) (h : hash8) (bs : buffer) : hash8 :=
  match n with
  | O => h
  | S n' => blocks n' (compress h (take 64 bs)) (drop 64 bs)
  end.

Definition digest_bytes (h : hash8) : buffer :=
  be_bytes 4 (ha h) ++ be_bytes 4 (hb h) ++ be_bytes 4 (hc h)
  ++ be_bytes 4 (hd h) ++ be_bytes 4 (he h) ++ be_bytes 4 (hf h)
  ++ be_bytes 4 (hg h) ++ be_bytes 4 (hh h).

Definition sha256 (m : buffer) : buffer :=
  let p := pad m in
  digest_bytes (blocks (length p / 64) H256 p).

(** *** HMAC (RFC 2104) with SHA-256, block size 64 *)

Definition xor_byte (c : Z) (b : byte) : byte :=
  byte_of_Z (Z.lxor c (Z_of_byte b)).

Definition hmac_sha256 (key msg : buffer) : buffer :=
  let k0 := if (64 <? length key)%nat then sha256 key else key in
  let k := k0 ++ repeat Byte.x00 (64 - length k0) in
  sha256 (map (xor_byte 92) k ++ sha256 (map (xor_byte 54) k ++ msg)).

(** [digest('hex')]: two lower-case hexadecimal digits per byte. *)
Definition hex_digit (d : Z) : N :=
  Z.to_N (if d <? 10 then 48 + d else 87 + d).

Definition hex (bs : buffer) : jsstring :=
  flat_map (fun b => [hex_digit (Z_of_byte b / 16);
                      hex_digit (Z_of_byte b mod 16)]) bs.

(** [crypto.createHmac('sha256', key).update(data).digest('hex')] for
    a key and data given as strings. *)
Definition createHmac_sha256_hex (key data : jsstring) : jsstring :=
  hex (hmac_sha256 (utf8 key) (utf8 data)).

(** [crypto.timingSafeEqual(a, b)] throws a RangeError when the two
    buffers differ in byte length ([None] here) and otherwise answers
    whether they hold the same bytes. *)
Fixpoint equal_bytes (a b : buffer) : bool :=
  match a, b with
  | [], [] => true
  | x :: a', y :: b' => Byte.eqb x y && equal_bytes a' b'
  | _, _ => false
  end.

Definition timingSafeEqual (a b : buffer) : option bool :=
  if (length a =? length b)%nat then Some (equal_bytes a b) else None.

End Crypto.

Import Crypto.

(** ** JavaScript numbers, as far as the freshness check needs them

    [currentTime - timestamp] coerces the timestamp header, a string, to
    a number.  The coercion is the platform's: it is a parameter
    ([ToNumber]) of the authenticator below.  Its results are kept
    exact: a rational, an infinity or NaN. *)

Module Num.

Inductive number : Type :=
| NaN
| Infinity (negative : bool)
| Finite (q : Q).

(** [a - b] *)
Definition minus (a b : number) : number :=
  match a, b with
  | NaN, _ | _, NaN => NaN
  | Finite x, Finite y => Finite (x - y)%Q
  | Finite _, Infinity s => Infinity (negb s)
  | Infinity s, Finite _ => Infinity s
  | Infinity s, Infinity t => if Bool.eqb s t then NaN else Infinity s
  end.

(** [Math.abs(a)] *)
Definition Math_abs (a : number) : number :=
  match a with
  | NaN => NaN
  | Infinity _ => Infinity false
  | Finite x => Finite (Qabs x)
  end.

(** [a > b]; any comparison with NaN is false. *)
Definition gt (a b : number) : bool :=
  match a, b with
  | NaN, _ | _, NaN => false
  | Finite x, Finite y => negb (Qle_bool x y)
  | Finite _, Infinity s => s
  | Infinity s, Finite _ => negb s
  | Infinity s, Infinity t => negb s && t
  end.

Definition of_Z (z : Z) : number := Finite (inject_Z z).

End Num.

Import Num.

(** ** What a handler can do, and what it can leave behind *)

Inductive exn : Type :=
| RangeError              (* crypto.timingSafeEqual on unequal lengths *)
| TypeError               (* a method called on undefined *)
| AxiosError (url : jsstring).  (* a request that failed *)

Inductive log_line : Type :=
| SignatureVerificationFailed
| SearchError (e : exn)
| ErrorFetching (url : jsstring) (e : exn).

(** ** RequestAuthenticator: [verifySlackSignature], lines 14-50 *)

(** [req.body] holds the raw bytes that [express.raw] captured until the
    middleware replaces it by the parsed form fields. *)
Inductive body_t : Type :=
| Raw (bytes : buffer)
| Fields (o : gmap jsstring jsstring).

Record request : Type := Request {
  headers : gmap jsstring jsstring;
  body : body_t }.

(** How the middleware ends: a response sent, [next()] called, or an
    exception thrown into Express. *)
Inductive outcome : Type :=
| Sent (status : Z) (text : string)
| Next
| Threw (e : exn).

Record handled : Type := Handled {
  req_after : request;
  console : list log_line;
  result : outcome }.

(** [!v] is false exactly for a defined, non-empty string. *)
Definition truthy (v : option jsstring) : bool :=
  match v with
  | Some (_ :: _) => true
  | _ => false
  end.

(** [Object.fromEntries(pairs)]: later pairs overwrite earlier ones. *)
Definition Object_fromEntries (pairs : list (jsstring * jsstring))
  : gmap jsstring jsstring :=
  fold_left (fun o kv => <[fst kv := snd kv]> o) pairs ∅.

Section Authenticator.

(** The platform: string-to-number coercion, [Buffer.toString('utf8')]
    and the pairs [new URLSearchParams(s)] iterates over. *)
Variable ToNumber : jsstring -> number.
Variable toString_utf8 : buffer -> jsstring.
Variable URLSearchParams : jsstring -> list (jsstring * jsstring).

(** [req.body.toString('utf8')]: on a body that is no longer a Buffer,
    [Object.prototype.toString] answers. *)
Definition body_toString (b : body_t) : jsstring :=
  match b with
  | Raw bytes => toString_utf8 bytes
  | Fields _ => lit "[object Object]"
  end.

(** The freshness test of lines 24-25, for [Date.now()] in
    milliseconds. *)
Definition stale (date_now : Z) (timestamp : jsstring) : bool :=
  let currentTime := of_Z (date_now / 1000) in
  gt (Math_abs (minus currentTime (ToNumber timestamp))) (of_Z 300).

(** The middleware, lines 14-50.  [signingSecret] is
    [process.env.SLACK_SIGNING_SECRET], which may be unset: [createHmac]
    then throws a TypeError. *)
Definition verifySlackSignature
  (req : request) (signingSecret : option jsstring) (date_now : Z) : handled :=
  let slackSignature := headers req !! lit "x-slack-signature" in
  let timestamp := headers req !! lit "x-slack-request-timestamp" in
  if negb (truthy slackSignature) || negb (truthy timestamp) then
    Handled req [] (Sent 401 "Unauthorized")
  else
    let slackSignature := default [] slackSignature in
    let timestamp := default [] timestamp in
    if stale date_now timestamp then
      Handled req [] (Sent 401 "Request timeout")
    else
      let rawBody := body_toString (body req) in
      let req := Request (headers req)
                   (Fields (Object_fromEntries (URLSearchParams rawBody))) in
      let sigBasestring := lit "v0:" ++ timestamp ++ lit ":" ++ rawBody in
      match signingSecret with
      | None => Handled req [] (Threw TypeError)
      | Some secret =>
          let mySignature :=
            lit "v0=" ++ createHmac_sha256_hex secret sigBasestring in
          match timingSafeEqual (utf8 mySignature) (utf8 slackSignature) with
          | None => Handled req [] (Threw RangeError)
          | Some true => Handled req [] Next
          | Some false =>
              Handled req [SignatureVerificationFailed]
                      (Sent 401 "Unauthorized")
          end
      end.

End Authenticator.

(** The three rejections of the specification's [AuthError], read off
    what the middleware sends and logs. *)
Definition MissingCredentials (h : handled) : Prop :=
  result h = Sent 401 "Unauthorized" /\ console h = [].
Definition StaleRequest (h : handled) : Prop :=
  result h = Sent 401 "Request timeout" /\ console h = [].
Definition InvalidSignature (h : handled) : Prop :=
  result h = Sent 401 "Unauthorized"
  /\ console h = [SignatureVerificationFailed].

(** ** SessionBoardSearch, lines 93-182 *)

Record article : Type := Article {
  title : jsstring;
  url : jsstring }.

(** [{ ...article, snippet }] *)
Record searchResult : Type := SearchResult {
  res_title : jsstring;
  res_url : jsstring;
  snippet : jsstring }.

Definition withSnippet (a : article) (s : jsstring) : searchResult :=
  SearchResult (title a) (url a) s.

Definition article_of (r : searchResult) : article :=
  Article (res_title r) (res_url r).

(** An [a] element of a parsed page: its text and its [href], if any. *)
Record anchor : Type := Anchor {
  a_text : jsstring;
  a_href : option jsstring }.

(** One call of [axios.get]: the address asked for and whether a
    response came back. *)
Record fetch : Type := Fetch {
  f_url : jsstring;
  f_ok : bool }.

(** What a search reads and writes: [this.cache], the requests sent so
    far, the console, and the delays waited (in milliseconds). *)
Record world : Type := World {
  cache : gmap jsstring jsstring;
  requests : list fetch;
  logged : list log_line;
  delays : list Z }.

(** A computation either returns or throws, in a world it may change. *)
Inductive completion (A : Type) : Type :=
| Return (a : A)
| Throw (e : exn).
Arguments Return {A} a.
Arguments Throw {A} e.

Definition M (A : Type) : Type := world -> completion A * world.

Definition ret {A} (a : A) : M A := fun w => (Return a, w).
Definition throw {A} (e : exn) : M A := fun w => (Throw e, w).
Definition bind {A B} (m : M A) (k : A -> M B) : M B :=
  fun w => match m w with
           | (Return a, w') => k a w'
           | (Throw e, w') => (Throw e, w')
           end.
(** [try { m } catch (e) { handler e }] *)
Definition try_catch {A} (m : M A) (handler : exn -> M A) : M A :=
  fun w => match m w with
           | (Return a, w') => (Return a, w')
           | (Throw e, w') => handler e w'
           end.

Declare Scope js_scope.
Delimit Scope js_scope with js.
Notation "x <- m ;; k" := (bind m (fun x => k))
  (at level 100, m at next level, right associativity) : js_scope.
Notation "m ;;; k" := (bind m (fun _ => k))
  (at level 100, right associativity) : js_scope.

Definition cache_has (u : jsstring) : M bool :=
  fun w => (Return (bool_decide (is_Some (cache w !! u))), w).
Definition cache_get (u : jsstring) : M (option jsstring) :=
  fun w => (Return (cache w !! u), w).
Definition cache_set (u content : jsstring) : M unit :=
  fun w => (Return tt,
            World (<[u := content]> (cache w)) (requests w) (logged w)
                  (delays w)).
Definition console_error (l : log_line) : M unit :=
  fun w => (Return tt,
            World (cache w) (requests w) (logged w ++ [l]) (delays w)).
(** [await new Promise(resolve => setTimeout(resolve, ms))] *)
Definition sleep (ms : Z) : M unit :=
  fun w => (Return tt,
            World (cache w) (requests w) (logged w) (delays w ++ [ms])).

Definition baseUrl : jsstring :=
  lit "https://learn.sessionboard.com/en/knowledge-base".
Definition origin : jsstring := lit "https://learn.sessionboard.com".

Section Search.

(** The platform and the outside world: the network, which may answer a
    request differently depending on the requests made before it;
    cheerio's view of a page (its [a] elements in document order, the
    text of its body); and [String.prototype.toLowerCase]. *)
Variable network : list fetch -> jsstring -> option jsstring.
Variable anchors_of : jsstring -> list anchor.
Variable body_text : jsstring -> jsstring.
Variable toLowerCase : jsstring -> jsstring.

(** [await axios.get(u)], answering [response.data]. *)
Definition axios_get (u : jsstring) : M jsstring :=
  fun w =>
    match network (requests w) u with
    | Some data =>
        (Return data,
         World (cache w) (requests w ++ [Fetch u true]) (logged w) (delays w))
    | None =>
        (Throw (AxiosError u),
         World (cache w) (requests w ++ [Fetch u false]) (logged w) (delays w))
    end.

(** [$('a[href*="/knowledge-base/"]')]: the anchors whose [href]
    attribute has the text inside it. *)
Definition selected (element : anchor) : bool :=
  match a_href element with
  | Some href => includes href (lit "/knowledge-base/")
  | None => false
  end.

(** The callback of [.each], lines 108-117, on the list built so far. *)
Definition pushArticle (articles : list article) (element : anchor)
  : list article :=
  let title := trim (a_text element) in
  let href := a_href element in
  if truthy (Some title) && truthy href && (3 <? len title) then
    let href := default [] href in
    articles ++ [Article title
                   (if startsWith href (lit "http") then href
                    else origin ++ href)]
  else articles.

Definition discoverArticles (data : jsstring) : list article :=
  fold_left pushArticle (List.filter selected (anchors_of data)) [].

(** The push of lines 137-142 and 150-155. *)
Definition pushIfMatches (results : list searchResult) (a : article)
  (content queryLower : jsstring) : list searchResult :=
  if contentMatches content queryLower
  then results ++ [withSnippet a (extractSnippet content queryLower)]
  else results.

Local Open Scope js_scope.

(** One turn of the loop of lines 133-164.  The only statements of the
    [try] block that can throw come before the push, so the results the
    handler continues with are the ones the turn started with. *)
Definition searchArticle (a : article) (queryLower : jsstring)
  (results : list searchResult) : M (list searchResult) :=
  try_catch
    (has <- cache_has (url a) ;;
     results' <-
       (if has : bool then
          content <- cache_get (url a) ;;
          match content with
          | Some content => ret (pushIfMatches results a content queryLower)
          | None => throw TypeError
          end
        else
          data <- axios_get (url a) ;;
          let content := toLowerCase (body_text data) in
          cache_set (url a) content ;;;
          ret (pushIfMatches results a content queryLower)) ;;
     sleep 500 ;;;
     ret results')
    (fun e => console_error (ErrorFetching (url a) e) ;;; ret results).

Fixpoint forArticles (articles : list article) (queryLower : jsstring)
  (results : list searchResult) : M (list searchResult) :=
  match articles with
  | [] => ret results
  | a :: rest =>
      results' <- searchArticle a queryLower results ;;
      forArticles rest queryLower results'
  end.

(** [searchArticles(articles, query)], lines 129-167. *)
Definition searchArticles (articles : list article) (query : jsstring)
  : M (list searchResult) :=
  let queryLower := toLowerCase query in
  results <- forArticles (take 10 articles) queryLower [] ;;
  ret (take 5 results).

(** [searchKnowledgeBase(query)], lines 99-127. *)
Definition searchKnowledgeBase (query : jsstring) : M (list searchResult) :=
  try_catch
    (data <- axios_get baseUrl ;;
     let articles := discoverArticles data in
     searchResults <- searchArticles articles query ;;
     ret searchResults)
    (fun e => console_error (SearchError e) ;;; ret []).

End Search.

(** ** SlackAPI, lines 58-88 *)

(** The blocks of a message.  Every text in them is of type [mrkdwn]. *)
Inductive block : Type :=
| SectionBlock (text : jsstring)
| DividerBlock
| ContextBlock (elements : list jsstring).

(** The data of a call: [{ channel, text }], with [blocks] or without,
    for [chat.postMessage], and [{ channel, user, text }] for
    [chat.postEphemeral].  A field that is [undefined] is [None]. *)
Inductive payload : Type :=
| MessageData (channel : option jsstring) (text : jsstring)
    (blocks : option (list block))
| EphemeralData (channel user : option jsstring) (text : jsstring).

(** One [axios.post]: the address, the [Authorization] header and the
    data. *)
Record slack_call : Type := SlackCall {
  call_url : jsstring;
  call_authorization : jsstring;
  call_data : payload }.

(** [`${v}`] for a value that is a string or [undefined]. *)
Definition render (v : option jsstring) : jsstring :=
  match v with
  | Some s => s
  | None => lit "undefined"
  end.

(** [`${n}`] for a length. *)
Definition decimal (n : nat) : jsstring :=
  lit (NilZero.string_of_uint (Nat.to_uint n)).

(** The double quote, and [`"${v}"`]. *)
Definition dquote : jsstring := [34%N].
Definition quoted (v : option jsstring) : jsstring :=
  dquote ++ render v ++ dquote.

(** ** The slash-command handler and [sendSearchResults], lines 187-279 *)

(** [res.json({ response_type, text })] with its status. *)
Inductive reply : Type :=
| JsonReply (status : Z) (response_type text : string).

(** What can be thrown in a handler: what the search and the Slack
    client throw, and Express's error for a response sent twice. *)
Inductive error : Type :=
| Raised (e : exn)
| HeadersSent.

Inductive handler_line : Type :=
| SlashCommandReceived (body : gmap jsstring jsstring)
| SlackApiError (method : jsstring) (e : error)
| HandlerSearchError (e : error)
| CommandHandlerError (e : error).

(** The state a handler runs in: the world of the one [searcher], the
    calls made to Slack with their success, the responses sent on [res],
    and the handler's own console lines. *)
Record server : Type := Server {
  searcher : world;
  calls : list (slack_call * bool);
  replies : list reply;
  printed : list handler_line }.

Inductive finished (A : Type) : Type :=
| Done (a : A)
| Failed (e : error).
Arguments Done {A} a.
Arguments Failed {A} e.

Definition H (A : Type) : Type := server -> finished A * server.

Definition hret {A} (a : A) : H A := fun s => (Done a, s).
Definition hbind {A B} (m : H A) (k : A -> H B) : H B :=
  fun s => match m s with
           | (Done a, s') => k a s'
           | (Failed e, s') => (Failed e, s')
           end.
Definition htry {A} (m : H A) (handler : error -> H A) : H A :=
  fun s => match m s with
           | (Done a, s') => (Done a, s')
           | (Failed e, s') => handler e s'
           end.

Declare Scope handler_scope.
Delimit Scope handler_scope with handler.
Notation "x <- m ;; k" := (hbind m (fun x => k))
  (at level 100, m at next level, right associativity) : handler_scope.
Notation "m ;;; k" := (hbind m (fun _ => k))
  (at level 100, right associativity) : handler_scope.

Definition print (l : handler_line) : H unit :=
  fun s => (Done tt,
            Server (searcher s) (calls s) (replies s) (printed s ++ [l])).

(** [res.status(status).json(...)]: Express throws when the response
    has been sent already. *)
Definition res_json (status : Z) (text : string) : H unit :=
  fun s => match replies s with
           | [] => (Done tt,
                    Server (searcher s) (calls s)
                           [JsonReply status "ephemeral" text] (printed s))
           | _ :: _ => (Failed HeadersSent, s)
           end.

(** A computation of the searcher, run on the searcher's world. *)
Definition on_searcher {A} (m : M A) : H A :=
  fun s => match m (searcher s) with
           | (Return a, w) =>
               (Done a, Server w (calls s) (replies s) (printed s))
           | (Throw e, w) =>
               (Failed (Raised e), Server w (calls s) (replies s) (printed s))
           end.

(** [results.length] *)
Definition len_results (results : list searchResult) : Z :=
  Z.of_nat (length results).

(** [results.forEach((result, index) => ...)] on a state [s]. *)
Fixpoint forEach_from {A S : Type} (f : S -> A -> Z -> S) (l : list A)
  (index : Z) (s : S) : S :=
  match l with
  | [] => s
  | x :: l' => forEach_from f l' (index + 1) (f s x index)
  end.

Definition forEach {A S : Type} (f : S -> A -> Z -> S) (l : list A) (s : S)
  : S :=
  forEach_from f l 0 s.

Definition header_block (query : option jsstring) : block :=
  SectionBlock (lit "*SessionBoard Knowledge Base Results for "
                ++ quoted query ++ lit "*").

(** Lines 255-261: the section of one result. *)
Definition result_block (result : searchResult) : block :=
  SectionBlock
    (lit "*<" ++ res_url result ++ lit "|" ++ res_title result ++ lit ">*"
     ++ [10%N]
     ++ match snippet result with
        | [] => lit "Click to read more..."
        | _ :: _ => snippet result
        end).

Definition footer_block : block :=
  ContextBlock [lit "Use `/sbhelp [your question]` to search again"].

(** Lines 241-276: the blocks of a message for results. *)
Definition result_blocks (query : option jsstring)
  (results : list searchResult) : list block :=
  let blocks := [header_block query; DividerBlock] in
  let blocks :=
    forEach
      (fun blocks result index =>
         let blocks := blocks ++ [result_block result] in
         if index <? len_results results - 1
         then blocks ++ [DividerBlock]
         else blocks)
      results blocks in
  blocks ++ [footer_block].

Definition no_results_text (query : option jsstring) : jsstring :=
  lit "No results found for " ++ quoted query
  ++ lit ". Try searching for general topics like "
  ++ quoted (Some (lit "getting started")) ++ lit ", "
  ++ quoted (Some (lit "setup")) ++ lit ", or "
  ++ quoted (Some (lit "features")) ++ lit ".".

Definition found_text (query : option jsstring)
  (results : list searchResult) : jsstring :=
  lit "Found " ++ decimal (length results) ++ lit " results for "
  ++ quoted query.

Definition apology : jsstring :=
  lit "Sorry, I encountered an error while searching. Please try again.".

Section Handler.

Variable network : list fetch -> jsstring -> option jsstring.
Variable anchors_of : jsstring -> list anchor.
Variable body_text : jsstring -> jsstring.
Variable toLowerCase : jsstring -> jsstring.

(** Slack's answer to a call ([response.data]), after the calls made
    before it; [None] when [axios.post] throws.  The token is
    [process.env.SLACK_BOT_TOKEN]. *)
Variable slack : list (slack_call * bool) -> slack_call -> option jsstring.
Variable token : option jsstring.

Local Open Scope handler_scope.

(** [SlackAPI.request(method, data)], lines 64-77. *)
Definition slack_request (method : jsstring) (data : payload)
  : H jsstring :=
  fun s =>
    let call :=
      SlackCall (lit "https://slack.com/api" ++ lit "/" ++ method)
                (lit "Bearer " ++ render token) data in
    match slack (calls s) call with
    | Some response_data =>
        (Done response_data,
         Server (searcher s) (calls s ++ [(call, true)]) (replies s)
                (printed s))
    | None =>
        let e := Raised (AxiosError (call_url call)) in
        (Failed e,
         Server (searcher s) (calls s ++ [(call, false)]) (replies s)
                (printed s ++ [SlackApiError method e]))
    end.

(** [postMessage(channel, text, blocks = null)], lines 79-83. *)
Definition postMessage (channel : option jsstring) (text : jsstring)
  (blocks : option (list block)) : H jsstring :=
  let payload :=
    match blocks with
    | Some blocks => MessageData channel text (Some blocks)
    | None => MessageData channel text None
    end in
  slack_request (lit "chat.postMessage") payload.

(** [postEphemeral(channel, user, text)], lines 85-87. *)
Definition postEphemeral (channel user : option jsstring) (text : jsstring)
  : H jsstring :=
  slack_request (lit "chat.postEphemeral")
    (EphemeralData channel user text).

(** [sendSearchResults(channel, user, query, results)], lines
    232-279. *)
Definition sendSearchResults (channel user query : option jsstring)
  (results : list searchResult) : H unit :=
  if len_results results =? 0 then
    postMessage channel (no_results_text query) None ;;;
    hret tt
  else
    postMessage channel (found_text query results)
      (Some (result_blocks query results)) ;;;
    hret tt.

(** The handler of [POST /slack/commands], lines 187-220, on the
    fields the middleware left in [req.body]. *)
Definition slashCommand (body : gmap jsstring jsstring) : H unit :=
  htry
    (print (SlashCommandReceived body) ;;;
     let command := body !! lit "command" in
     let text := body !! lit "text" in
     let user_id := body !! lit "user_id" in
     let channel_id := body !! lit "channel_id" in
     if bool_decide (command = Some (lit "/sbhelp")) then
       res_json 200 "Searching SessionBoard knowledge base..." ;;;
       htry
         (results <-
            on_searcher
              (searchKnowledgeBase network anchors_of body_text toLowerCase
                 (if truthy text then render text
                  else lit "getting started")) ;;
          sendSearchResults channel_id user_id text results)
         (fun e =>
            print (HandlerSearchError e) ;;;
            postEphemeral channel_id user_id apology ;;;
            hret tt)
     else
       res_json 200 "Unknown command")
    (fun e =>
       print (CommandHandlerError e) ;;;
       res_json 500 "Internal server error").

End Handler.

(** ** Instances of the platform functions

    They run the model on concrete requests and pages.  Each agrees
    with Node on the inputs named in its comment. *)

Module Fixture.

(** [ToNumber] on strings of decimal digits; NaN elsewhere. *)
Fixpoint digits_value (acc : Z) (s : jsstring) : option Z :=
  match s with
  | [] => Some acc
  | c :: s' =>
      if ((48 <=? c) && (c <=? 57))%N
      then digits_value (acc * 10 + (Z.of_N c - 48)) s'
      else None
  end.

Definition ToNumber (s : jsstring) : number :=
  match digits_value 0 s with
  | Some z => of_Z z
  | None => NaN
  end.

(** [Buffer.toString('utf8')] on bytes below 128. *)
Definition toString_utf8 (b : buffer) : jsstring := map Byte.to_N b.

(** [new URLSearchParams(s)] on text without [%] and [+]: the pairs are
    separated by [&], a name from its value by the first [=]. *)
Fixpoint cut (sep : N) (s : jsstring) : jsstring * jsstring :=
  match s with
  | [] => ([], [])
  | c :: s' =>
      if N.eqb c sep then ([], s')
      else let (name, value) := cut sep s' in (c :: name, value)
  end.

Definition URLSearchParams (s : jsstring) : list (jsstring * jsstring) :=
  map (cut 61)
      (List.filter (fun p => negb (Nat.eqb (length p) 0)) (split 38 s)).

(** [toLowerCase] on code units below 128. *)
Definition toLowerCase (s : jsstring) : jsstring :=
  map (fun c => if ((65 <=? c) && (c <=? 90))%N then (c + 32)%N else c) s.

(** The bytes of an ASCII literal. *)
Definition bytes (s : string) : buffer := utf8 (lit s).

Definition secret : jsstring := lit "8f742231b10e8888abcd99yyyzzz85a5".

Definition form : string :=
  "token=xyzz0WbapA4vBCDEFasx0q6G&command=/sbhelp&text=workspace settings".

(** The signature Slack would send for [form] at second 1700000000. *)
Definition signature : jsstring :=
  Eval vm_compute in
    lit "v0=" ++ createHmac_sha256_hex secret
                   (lit "v0:1700000000:" ++ lit form).

Definition signed (sig : jsstring) : request :=
  Request (<[lit "x-slack-signature" := sig]>
             (<[lit "x-slack-request-timestamp" := lit "1700000000"]> ∅))
          (Raw (bytes form)).

(** A small site.  Its pages are plain text, so that the text of a
    page's body is the page itself; the landing page is known by its
    links. *)
Definition names : list string :=
  ["alpha"; "bravo"; "charlie"; "delta"; "echo"; "foxtrot"; "golf";
   "hotel"; "india"; "juliett"; "kilo"; "lima"]%string.

Definition link (name : string) : anchor :=
  Anchor (lit " Guide " ++ lit name ++ lit " ")
         (Some (lit "/en/knowledge-base/" ++ lit name)).

Definition landing : jsstring := lit "<html>the landing page</html>".

Definition links : list anchor :=
  [Anchor (lit "Pricing plans") (Some (lit "/pricing"));
   Anchor (lit " FAQ ") (Some (lit "/en/knowledge-base/faq"));
   Anchor (lit "No address") None]
  ++ map link names.

Definition anchors_of (data : jsstring) : list anchor :=
  if bool_decide (data = landing) then links else [].

Definition body_text (data : jsstring) : jsstring := data.

Definition page (name : string) : jsstring :=
  if String.eqb name "charlie" then lit "How to set up your Workspace"
  else if String.eqb name "hotel"
       then lit "  All Workspace Settings explained  "
  else if String.eqb name "lima" then lit "workspace settings again"
  else lit "Nothing to see here".

Definition site : list (jsstring * jsstring) :=
  (baseUrl, landing)
  :: map (fun name => (origin ++ lit "/en/knowledge-base/" ++ lit name,
                       page name)) names.

Fixpoint served (pages : list (jsstring * jsstring)) (u : jsstring)
  : option jsstring :=
  match pages with
  | [] => None
  | (v, data) :: pages' =>
      if bool_decide (v = u) then Some data else served pages' u
  end.

(** The network when the site answers, and when nothing does. *)
Definition online (_ : list fetch) (u : jsstring) : option jsstring :=
  served site u.
Definition offline (_ : list fetch) (_ : jsstring) : option jsstring := None.

Definition fresh : world := World ∅ [] [] [].

(** A page whose only link has a relative address that begins with the
    letters "http". *)
Definition intro_link : anchor :=
  Anchor (lit " Intro page ") (Some (lit "httpdocs/knowledge-base/intro")).
Definition anchors_intro (_ : jsstring) : list anchor := [intro_link].

(** Two links to one article. *)
Definition alpha_url : jsstring := origin ++ lit "/en/knowledge-base/alpha".
Definition alpha_twice : list article :=
  [Article (lit "Guide alpha") alpha_url;
   Article (lit "Alpha, again") alpha_url].

(** Slack when it answers, when it does not, and when only its first
    call fails; a token; the fields of a command; a server at rest. *)
Definition slack_up (_ : list (slack_call * bool)) (_ : slack_call)
  : option jsstring := Some (lit "{ ok: true }").
Definition slack_down (_ : list (slack_call * bool)) (_ : slack_call)
  : option jsstring := None.
Definition slack_flaky (before : list (slack_call * bool)) (_ : slack_call)
  : option jsstring :=
  match before with
  | [] => None
  | _ :: _ => Some (lit "{ ok: true }")
  end.

Definition token : option jsstring := Some (lit "xoxb-0000").

Definition command : gmap jsstring jsstring :=
  Object_fromEntries
    (URLSearchParams
       (lit "command=/sbhelp&text=Workspace Settings&user_id=U024&channel_id=C061")).

Definition bare_command : gmap jsstring jsstring :=
  Object_fromEntries (URLSearchParams (lit "command=/sbhelp")).

Definition other_command : gmap jsstring jsstring :=
  Object_fromEntries (URLSearchParams (lit "command=/weather&text=Oslo")).

Definition idle : server := Server fresh [] [] [].

End Fixture.

(** ** The vocabulary of the properties *)

(** [q] occurs in [s]; [q] occurs in [s] at position [n]. *)
Definition occurs (q s : jsstring) : Prop :=
  exists pre post, s = pre ++ q ++ post.

Definition occurs_at (n : nat) (q s : jsstring) : Prop :=
  exists pre post, s = pre ++ q ++ post /\ length pre = n.

Definition first_occurrence (n : nat) (q s : jsstring) : Prop :=
  occurs_at n q s /\ forall m, occurs_at m q s -> (n <= m)%nat.

(** [w] is a piece of [q] between two delimiters, or between a delimiter
    and an end of [q]; it may be empty. *)
Definition delimited_piece (isDelim : N -> bool) (w q : jsstring) : Prop :=
  (forall c, In c w -> isDelim c = false)
  /\ exists pre post,
       q = pre ++ w ++ post
       /\ (pre = [] \/ exists p d, pre = p ++ [d] /\ isDelim d = true)
       /\ (post = [] \/ exists d p, post = d :: p /\ isDelim d = true).

(** A string of code units below 128. *)
Definition ascii_only (s : jsstring) : Prop :=
  Forall (fun c => (c < 128)%N) s.

#[local] Instance byte_eq_decision : EqDecision byte := Byte.byte_eq_dec.

#[local] Instance fetch_eq_decision : EqDecision fetch.
Proof. solve_decision. Defined.

(** The requests for one address among a list of requests, and the
    ones among them that were answered. *)
Definition fetches_of (u : jsstring) (l : list fetch) : list fetch :=
  List.filter (fun f => bool_decide (f_url f = u)) l.

Definition answered_of (u : jsstring) (l : list fetch) : list fetch :=
  List.filter (fun f => f_ok f && bool_decide (f_url f = u)) l.

(** An absolute URL, as the specification means it: one with the scheme
    and the two slashes. *)
Definition absoluteUrl (u : jsstring) : bool :=
  startsWith u (lit "http://") || startsWith u (lit "https://").

(** The articles [.each] pushes, one anchor after the other. *)
Definition kept (element : anchor) : bool :=
  truthy (Some (trim (a_text element))) && truthy (a_href element)
  && (3 <? len (trim (a_text element))).

Definition article_at (element : anchor) : article :=
  let href := default [] (a_href element) in
  Article (trim (a_text element))
          (if startsWith href (lit "http") then href else origin ++ href).

(** What a run of the loop leaves behind. *)
Inductive crawled (articles : list article) (rs rs' : list searchResult)
  (w w' : world) : Prop :=
| Crawled (new : list fetch) (added : list searchResult)
    (crawled_requests : requests w' = requests w ++ new)
    (crawled_results : rs' = rs ++ added)
    (crawled_order : sublist (map article_of added) articles)
    (crawled_asked : sublist (map f_url new) (map url articles))
    (crawled_cache : cache w ⊆ cache w')
    (crawled_hits :
       forall u, is_Some (cache w !! u) -> ~ In u (map f_url new))
    (crawled_once :
       forall l1 l2 u, new = l1 ++ Fetch u true :: l2 -> ~ In u (map f_url l2))
    (crawled_stored :
       forall u, In (Fetch u true) new -> is_Some (cache w' !! u)).

(** * Properties *)

(** ** Strings: what [includes], [indexOf], [split] and [trim] compute *)

Lemma startsWith_spec (s p : jsstring) :
  startsWith s p = true <-> exists post, s = p ++ post.
Proof.
  revert p; induction s as [|b s IH]; intros [|a p]; simpl.
  - split; [by exists [] | done].
  - split; [done | by intros [post H]].
  - split; [by exists (b :: s) | done].
  - destruct (N.eqb_spec a b) as [->|Hne].
    + rewrite IH. split; intros [post H]; exists post; congruence.
    + split; [done | intros [post H]; congruence].
Qed.

Lemma includes_spec (s q : jsstring) : includes s q = true <-> occurs q s.
Proof.
  induction s as [|c s IH]; cbn [includes].
  - rewrite orb_false_r, startsWith_spec. split.
    + intros [post H]. exists [], post. done.
    + intros (pre & post & H). destruct pre; simpl in *; [eauto | discriminate].
  - rewrite orb_true_iff, startsWith_spec, IH. split.
    + intros [[post H] | (pre & post & H)].
      * exists [], post. done.
      * exists (c :: pre), post. simpl. congruence.
    + intros (pre & post & H). destruct pre as [|c' pre]; simpl in H.
      * left; eauto.
      * right. exists pre, post. congruence.
Qed.

Lemma includes_empty (s : jsstring) : includes s [] = true.
Proof. destruct s; reflexivity. Qed.

Lemma occurs_at_startsWith (n : nat) (q s : jsstring) :
  occurs_at n q s <-> (n <= length s)%nat /\ startsWith (drop n s) q = true.
Proof.
  rewrite startsWith_spec. split.
  - intros (pre & post & -> & <-). split.
    + rewrite length_app. lia.
    + exists post. by rewrite drop_app_length.
  - intros [Hn [post H]]. exists (take n s), post. split.
    + by rewrite <- H, take_drop.
    + rewrite length_take. lia.
Qed.

Lemma indexOf_from_absent (s q : jsstring) (i : Z) :
  includes s q = false -> indexOf_from s q i = -1.
Proof.
  revert i; induction s as [|c s IH]; intros i; cbn [includes indexOf_from];
    intros [H1 H2]%orb_false_iff; rewrite H1; auto.
Qed.

Lemma indexOf_from_found (s q : jsstring) (i : Z) :
  includes s q = true ->
  exists n, indexOf_from s q i = i + Z.of_nat n /\ first_occurrence n q s.
Proof.
  revert i; induction s as [|c s IH]; intros i; cbn [includes indexOf_from].
  - rewrite orb_false_r. intros H. rewrite H. exists 0%nat.
    split; [lia|]. split; [|intros; lia].
    apply occurs_at_startsWith. split; [simpl; lia | done].
  - destruct (startsWith (c :: s) q) eqn:Hs; cbn [orb].
    + intros _. exists 0%nat. split; [lia|]. split; [|intros; lia].
      apply occurs_at_startsWith. split; [simpl; lia | done].
    + intros H. destruct (IH (i + 1) H) as (n & Hn & Hocc & Hmin).
      exists (S n). split; [lia|]. split.
      * apply occurs_at_startsWith. apply occurs_at_startsWith in Hocc.
        simpl. split; [lia | tauto].
      * intros m Hm. apply occurs_at_startsWith in Hm as [Hm1 Hm2].
        destruct m as [|m]; [cbn [drop] in Hm2; congruence|].
        cbn [drop length] in Hm1, Hm2. assert (occurs_at m q s) as Hm
          by (apply occurs_at_startsWith; split; [lia | done]).
        apply Hmin in Hm. lia.
Qed.

Lemma first_occurrence_unique (n m : nat) (q s : jsstring) :
  first_occurrence n q s -> first_occurrence m q s -> n = m.
Proof.
  intros [Hn Hn'] [Hm Hm']. apply Hn' in Hm. apply Hm' in Hn. lia.
Qed.

(** [indexOf] answers [-1] exactly when the text is absent, and the
    position of the first occurrence otherwise. *)
Lemma indexOf_absent (s q : jsstring) : ~ occurs q s -> indexOf s q = -1.
Proof.
  intros H. apply indexOf_from_absent.
  destruct (includes s q) eqn:E; [|done]. by apply includes_spec in E.
Qed.

Lemma indexOf_first (n : nat) (s q : jsstring) :
  first_occurrence n q s -> indexOf s q = Z.of_nat n.
Proof.
  intros Hn. assert (includes s q = true) as H.
  { apply includes_spec. destruct Hn as [(pre & post & -> & _) _].
    by exists pre, post. }
  destruct (indexOf_from_found s q 0 H) as (m & Hm & Hfirst).
  unfold indexOf. rewrite Hm. rewrite (first_occurrence_unique _ _ _ _ Hn Hfirst).
  lia.
Qed.

(** [substring] between two indices in order and within bounds. *)
Lemma substring_within (s : jsstring) (a b : Z) :
  0 <= a <= b -> b <= len s ->
  substring s a b = take (Z.to_nat b - Z.to_nat a) (drop (Z.to_nat a) s).
Proof.
  intros Ha Hb. unfold substring, clamp.
  replace (Z.min (Z.max a 0) (len s)) with a by lia.
  replace (Z.min (Z.max b 0) (len s)) with b by lia.
  replace (Z.min a b) with a by lia. replace (Z.max a b) with b by lia.
  f_equal. lia.
Qed.

(** The pieces of [split]. *)
Lemma split_cons (sep : N) (s : jsstring) :
  exists w ws, split sep s = w :: ws.
Proof.
  induction s as [|c s (w & ws & IH)]; simpl; [eauto|].
  destruct (N.eqb c sep); [eauto|]. rewrite IH. eauto.
Qed.

Lemma split_app (sep : N) (a b : jsstring) :
  split sep (a ++ sep :: b) = split sep a ++ split sep b.
Proof.
  induction a as [|c a IH]; simpl.
  - by rewrite N.eqb_refl.
  - destruct (N.eqb c sep); [by rewrite IH|].
    rewrite IH. by destruct (split_cons sep a) as (w & ws & ->).
Qed.

Lemma split_free (sep : N) (w : jsstring) :
  (forall c, In c w -> N.eqb c sep = false) -> split sep w = [w].
Proof.
  induction w as [|c w IH]; simpl; intros H; [done|].
  rewrite (H c) by auto. rewrite IH; auto.
Qed.

Lemma split_pieces (sep : N) (q : jsstring) :
  exists w0 ws,
    split sep q = w0 :: ws
    /\ ((forall c, In c w0 -> N.eqb c sep = false)
        /\ exists post, q = w0 ++ post
                        /\ (post = [] \/ exists p, post = sep :: p))
    /\ forall w, In w ws ->
         (forall c, In c w -> N.eqb c sep = false)
         /\ exists p post, q = (p ++ [sep]) ++ w ++ post
                           /\ (post = [] \/ exists p', post = sep :: p').
Proof.
  induction q as [|c q (w0 & ws & IH & (Hfree & post & Hq & Hpost) & Hws)];
    simpl.
  - exists [], []. split; [done|]. split; [|intros w []].
    split; [intros c []|]. exists []. auto.
  - destruct (N.eqb_spec c sep) as [->|Hne].
    + exists [], (w0 :: ws). rewrite IH. split; [done|]. split.
      * split; [intros c []|]. exists (sep :: q). eauto.
      * intros w [<-|Hw].
        -- split; [done|]. exists [], post. simpl. split; [congruence | done].
        -- destruct (Hws w Hw) as (Hf & p & post' & Hq' & Hpost').
           split; [done|]. exists (sep :: p), post'. simpl.
           split; [congruence | done].
    + exists (c :: w0), ws. rewrite IH. split; [done|]. split.
      * split.
        -- intros c' [<-|Hc']; [by apply N.eqb_neq | auto].
        -- exists post. simpl. split; [congruence | done].
      * intros w Hw. destruct (Hws w Hw) as (Hf & p & post' & Hq' & Hpost').
        split; [done|]. exists (c :: p), post'. simpl.
        split; [congruence | done].
Qed.

(** [split] on one code unit yields exactly the pieces that code unit
    delimits. *)
Lemma split_spec (sep : N) (w q : jsstring) :
  In w (split sep q) <-> delimited_piece (fun c => N.eqb c sep) w q.
Proof.
  split.
  - destruct (split_pieces sep q)
      as (w0 & ws & -> & (Hfree & post & Hq & Hpost) & Hws).
    intros [<-|Hw].
    + split; [done|]. exists [], post. split; [done|]. split; [auto|].
      destruct Hpost as [->|[p ->]]; [auto|].
      right. exists sep, p. by rewrite N.eqb_refl.
    + destruct (Hws w Hw) as (Hf & p & post' & Hq' & Hpost').
      split; [done|]. exists (p ++ [sep]), post'. split; [done|]. split.
      * right. exists p, sep. by rewrite N.eqb_refl.
      * destruct Hpost' as [->|[p' ->]]; [auto|].
        right. exists sep, p'. by rewrite N.eqb_refl.
  - intros (Hfree & pre & post & -> & Hpre & Hpost).
    assert (In w (split sep (w ++ post))) as Hin.
    { destruct Hpost as [->|(d & p & -> & ->%N.eqb_eq)].
      - rewrite app_nil_r, split_free by done. by left.
      - rewrite split_app, split_free by done. by left. }
    destruct Hpre as [->|(p & d & -> & ->%N.eqb_eq)]; [done|].
    rewrite <- app_assoc. simpl. rewrite split_app.
    apply in_or_app. by right.
Qed.

(** [trim] removes white space at both ends and nothing else. *)
Lemma trimStart_spec (s : jsstring) :
  exists l, s = l ++ trimStart s
            /\ Forall (fun c => isWhiteSpace c = true) l
            /\ (forall c r, trimStart s = c :: r -> isWhiteSpace c = false).
Proof.
  induction s as [|c s (l & Hs & Hl & Hhd)]; simpl.
  - exists []. by repeat split.
  - destruct (isWhiteSpace c) eqn:Hc.
    + exists (c :: l). simpl. repeat split; [congruence | by constructor | done].
    + exists []. repeat split; [by constructor|]. intros c' r [= <- _]. done.
Qed.

Lemma trim_spec (s : jsstring) :
  exists l r,
    s = l ++ trim s ++ r
    /\ Forall (fun c => isWhiteSpace c = true) l
    /\ Forall (fun c => isWhiteSpace c = true) r
    /\ (forall c t, trim s = c :: t -> isWhiteSpace c = false)
    /\ (forall t c, trim s = t ++ [c] -> isWhiteSpace c = false).
Proof.
  destruct (trimStart_spec s) as (l & Hs & Hl & Hhd).
  destruct (trimStart_spec (rev (trimStart s))) as (r & Hr & Hr' & Hlast).
  unfold trim, trimEnd. set (t := trimStart (rev (trimStart s))) in *.
  assert (trimStart s = rev t ++ rev r) as Ht.
  { by rewrite <- rev_app_distr, <- Hr, rev_involutive. }
  exists l, (rev r). split; [congruence|]. split; [done|]. split.
  { by apply Forall_rev. }
  split.
  - intros c u Hu. destruct t as [|x t'] eqn:Et; [discriminate|].
    apply (Hhd c (u ++ rev r)). by rewrite Ht, Hu.
  - intros u c Hu. apply (Hlast c (rev u)).
    rewrite <- (rev_involutive t), Hu, rev_app_distr. done.
Qed.

Lemma occurs_first (q s : jsstring) :
  occurs q s -> exists n, first_occurrence n q s.
Proof.
  intros H%includes_spec.
  destruct (indexOf_from_found s q 0 H) as (n & _ & Hn). eauto.
Qed.

(** ** RelevanceMatcher *)

Example contentMatches_workspace :
  contentMatches (lit "setup your workspace here") (lit "workspace settings")
  = true.
Proof. reflexivity. Qed.

Example extractSnippet_workspace :
  extractSnippet (lit "setup your workspace here") (lit "workspace settings")
  = [].
Proof. reflexivity. Qed.

Example extractSnippet_found :
  extractSnippet (lit "  setup your workspace here ") (lit "workspace")
  = lit "setup your workspace here...".
Proof. reflexivity. Qed.

(** C5, as stated, fails: the pieces [contentMatches] tries are the
    ones delimited by the space character U+0020 alone.  In the query
    "a<TAB>b" the white-space-delimited token "a" occurs in the content
    "a", and [contentMatches] answers false. *)
Lemma contentMatches_tab_counterexample :
  delimited_piece isWhiteSpace (lit "a") [97; 9; 98]%N
  /\ occurs (lit "a") (lit "a")
  /\ contentMatches (lit "a") [97; 9; 98]%N = false.
Proof.
  split; [|split; [|reflexivity]].
  - split.
    + intros c [<-|[]]. reflexivity.
    + exists [], [9; 98]%N. split; [reflexivity|]. split; [by left|].
      right. by exists 9%N, [98%N].
  - by exists [], [].
Qed.

(** C5 (amended): [contentMatches content query] is true exactly when
    the whole query occurs in the content or some piece of the query
    delimited by single space characters U+0020 (a piece may be empty)
    occurs in the content; it is false when neither holds. *)
Theorem contentMatches_space_pieces (content query : jsstring) :
  contentMatches content query = true
  <-> occurs query content
      \/ exists w, delimited_piece (fun c => N.eqb c space) w query
                   /\ occurs w content.
Proof.
  unfold contentMatches.
  rewrite orb_true_iff, includes_spec, existsb_exists.
  split; (intros [H|(w & Hw & Hocc)]; [by left | right; exists w]).
  - by rewrite <- split_spec, <- includes_spec.
  - by rewrite split_spec, includes_spec.
Qed.


(** C10: a query that is empty, or starts or ends with a space, or has
    two spaces in a row, splits into pieces one of which is empty, and
    matches every content. *)
Theorem contentMatches_empty_piece (content query : jsstring) :
  query = []
  \/ (exists r, query = space :: r)
  \/ (exists r, query = r ++ [space])
  \/ (exists a b, query = a ++ [space; space] ++ b) ->
  In [] (split space query) /\ contentMatches content query = true.
Proof.
  intros H. assert (In [] (split space query)) as Hin.
  { destruct H as [->|[[r ->]|[[r ->]|(a & b & ->)]]].
    - by left.
    - by left.
    - rewrite split_app. apply in_or_app. right. by left.
    - simpl. rewrite split_app. apply in_or_app. right. by left. }
  split; [done|]. unfold contentMatches.
  apply orb_true_iff. right. apply existsb_exists.
  exists []. split; [done | apply includes_empty].
Qed.

Lemma contentMatches_empty_piece_witness :
  (exists a b, lit "a  b" = a ++ [space; space] ++ b)
  /\ In [] (split space (lit "a  b"))
  /\ contentMatches (lit "zzz") (lit "a  b") = true.
Proof.
  assert (exists a b, lit "a  b" = a ++ [space; space] ++ b) as H
    by (by exists (lit "a"), (lit "b")).
  split; [exact H|].
  apply (contentMatches_empty_piece (lit "zzz") (lit "a  b")).
  right. right. right. exact H.
Defined.

(** ** Crypto: the shape of a signature *)

Example sha256_abc :
  hex (sha256 (utf8 (lit "abc")))
  = lit "ba7816bf8f01cfea414140de5dae2223b00361a396177a9cb410ff61f20015ad".
Proof. vm_compute. reflexivity. Qed.

(** RFC 4231, test case 2. *)
Example hmac_sha256_rfc4231 :
  createHmac_sha256_hex (lit "Jefe") (lit "what do ya want for nothing?")
  = lit "5bdcc146bf60754e6a042426089575c75a003f089d2739839dec58b964ec3843".
Proof. vm_compute. reflexivity. Qed.

Lemma length_be_bytes (n : nat) (x : Z) : length (be_bytes n x) = n.
Proof. unfold be_bytes. by rewrite length_map, length_rev, length_seq. Qed.

Lemma length_sha256 (m : buffer) : length (sha256 m) = 32%nat.
Proof.
  unfold sha256, digest_bytes. by rewrite !length_app, !length_be_bytes.
Qed.

Lemma length_hmac_sha256 (key msg : buffer) :
  length (hmac_sha256 key msg) = 32%nat.
Proof. apply length_sha256. Qed.

Lemma length_hex (bs : buffer) : length (hex bs) = (2 * length bs)%nat.
Proof.
  induction bs as [|b bs IH]; [done|].
  unfold hex in *. cbn [flat_map length app]. rewrite IH. simpl. lia.
Qed.

Lemma hex_ascii (bs : buffer) : ascii_only (hex bs).
Proof.
  induction bs as [|b bs IH]; [constructor|].
  unfold hex in *. cbn [flat_map app].
  constructor; [|constructor; [|exact IH]]; by destruct b.
Qed.

Lemma length_utf8_ascii (s : jsstring) :
  ascii_only s -> length (utf8 s) = length s.
Proof.
  induction 1 as [|c s Hc _ IH]; [done|].
  cbn [utf8]. apply N.ltb_lt in Hc. rewrite Hc. simpl. by rewrite IH.
Qed.

(** The signature the middleware computes always has 67 bytes: the
    three of "v0=" and 64 hexadecimal digits. *)
Lemma length_mySignature (secret base : jsstring) :
  length (utf8 (lit "v0=" ++ createHmac_sha256_hex secret base)) = 67%nat.
Proof.
  rewrite length_utf8_ascii.
  - unfold createHmac_sha256_hex.
    by rewrite length_app, length_hex, length_hmac_sha256.
  - apply Forall_app. split; [by repeat constructor | apply hex_ascii].
Qed.

Lemma equal_bytes_spec (a b : buffer) : equal_bytes a b = true <-> a = b.
Proof.
  revert b; induction a as [|x a IH]; intros [|y b]; simpl; try done.
  rewrite andb_true_iff, IH. split.
  - intros [Hxy ->]. f_equal. by apply Byte.byte_dec_bl.
  - intros [= -> ->]. split; [by apply Byte.byte_dec_lb | done].
Qed.

Lemma timingSafeEqual_spec (a b : buffer) :
  timingSafeEqual a b
  = if decide (length a = length b) then Some (bool_decide (a = b)) else None.
Proof.
  unfold timingSafeEqual. destruct (Nat.eqb_spec (length a) (length b)).
  - rewrite decide_True by done. f_equal.
    apply eq_true_iff_eq. by rewrite equal_bytes_spec, bool_decide_eq_true.
  - by rewrite decide_False.
Qed.

(** ** RequestAuthenticator *)

Section AuthenticatorFacts.

Variable ToNumber : jsstring -> number.
Variable toString_utf8 : buffer -> jsstring.
Variable URLSearchParams : jsstring -> list (jsstring * jsstring).

Local Abbreviation verify :=
  (verifySlackSignature ToNumber toString_utf8 URLSearchParams).
Local Abbreviation k_sig := (lit "x-slack-signature").
Local Abbreviation k_ts := (lit "x-slack-request-timestamp").

(** The request once its body has been replaced by the parsed fields. *)
Definition parsed (req : request) : request :=
  Request (headers req)
    (Fields (Object_fromEntries
               (URLSearchParams (body_toString toString_utf8 (body req))))).

(** "v0=" followed by the hexadecimal HMAC-SHA256, under the secret, of
    "v0:" + timestamp + ":" + rawBody. *)
Definition expectedSignature (secret ts : jsstring) (req : request)
  : jsstring :=
  lit "v0=" ++ createHmac_sha256_hex secret
                 (lit "v0:" ++ ts ++ lit ":"
                  ++ body_toString toString_utf8 (body req)).

Lemma truthy_Some (s : jsstring) : s <> [] -> truthy (Some s) = true.
Proof. by destruct s. Qed.

(** A timestamp that is not a number is never stale: every comparison
    with NaN is false. *)
Lemma stale_NaN (now : Z) (ts : jsstring) :
  ToNumber ts = NaN -> stale ToNumber now ts = false.
Proof. intros H. unfold stale. by rewrite H. Qed.

(** Past the two gates, the comparison decides. *)
Lemma verify_compares (req : request) (secret sig ts : jsstring) (now : Z) :
  headers req !! k_sig = Some sig -> sig <> [] ->
  headers req !! k_ts = Some ts -> ts <> [] ->
  stale ToNumber now ts = false ->
  verify req (Some secret) now
  = match timingSafeEqual (utf8 (expectedSignature secret ts req)) (utf8 sig)
    with
    | None => Handled (parsed req) [] (Threw RangeError)
    | Some true => Handled (parsed req) [] Next
    | Some false =>
        Handled (parsed req) [SignatureVerificationFailed]
                (Sent 401 "Unauthorized")
    end.
Proof.
  intros Hsig Hsig' Hts Hts' Hfresh. unfold verifySlackSignature.
  rewrite Hsig, Hts, !truthy_Some by done. cbn [negb orb default from_option id].
  rewrite Hfresh. reflexivity.
Qed.

Lemma verify_accepts (req : request) (secret ts : jsstring) (now : Z) :
  headers req !! k_sig = Some (expectedSignature secret ts req) ->
  headers req !! k_ts = Some ts -> ts <> [] ->
  stale ToNumber now ts = false ->
  verify req (Some secret) now = Handled (parsed req) [] Next.
Proof.
  intros Hsig Hts Hts' Hfresh.
  rewrite (verify_compares req secret _ ts now Hsig) by done.
  rewrite timingSafeEqual_spec, decide_True, bool_decide_true; done.
Qed.

Lemma verify_rejects_same_length
  (req : request) (secret sig ts : jsstring) (now : Z) :
  headers req !! k_sig = Some sig ->
  headers req !! k_ts = Some ts -> ts <> [] ->
  stale ToNumber now ts = false ->
  length (utf8 sig) = 67%nat ->
  utf8 sig <> utf8 (expectedSignature secret ts req) ->
  InvalidSignature (verify req (Some secret) now).
Proof.
  intros Hsig Hts Hts' Hfresh Hlen Hne.
  assert (sig <> []) as Hsig' by (by intros ->).
  rewrite (verify_compares req secret sig ts now) by done.
  rewrite timingSafeEqual_spec, decide_True, bool_decide_false; [done|done|].
  unfold expectedSignature. by rewrite length_mySignature.
Qed.

(** C1: the comparison is [crypto.timingSafeEqual], which throws on
    buffers of different lengths.  A request whose two headers pass the
    gates and whose signature is not 67 bytes long is therefore not
    answered with the 401 of [InvalidSignature]: the middleware throws a
    RangeError. *)
Theorem verifySlackSignature_other_length_throws
  (req : request) (secret sig ts : jsstring) (now : Z) :
  headers req !! k_sig = Some sig -> sig <> [] ->
  headers req !! k_ts = Some ts -> ts <> [] ->
  stale ToNumber now ts = false ->
  length (utf8 sig) <> 67%nat ->
  result (verify req (Some secret) now) = Threw RangeError
  /\ ~ InvalidSignature (verify req (Some secret) now).
Proof.
  intros Hsig Hsig' Hts Hts' Hfresh Hlen.
  rewrite (verify_compares req secret sig ts now) by done.
  rewrite timingSafeEqual_spec, decide_False.
  - split; [done | by intros [? ?]].
  - unfold expectedSignature. by rewrite length_mySignature.
Qed.

(** The two ways the case analysis of the middleware ends early: a
    rejection before the body is parsed, an exception after. *)
Ltac unparsed :=
  split; [left; split; [first [left; by split | right; by split] | done]
         | done].
Ltac thrown :=
  split; [right; split; [right; right; by eexists | done] | done].



End AuthenticatorFacts.

Lemma verifySlackSignature_other_length_throws_witness :
  result
    (verifySlackSignature Fixture.ToNumber Fixture.toString_utf8
       Fixture.URLSearchParams (Fixture.signed (lit "v0=abc"))
       (Some Fixture.secret) 1700000012345)
  = Threw RangeError
  /\ ~ InvalidSignature
       (verifySlackSignature Fixture.ToNumber Fixture.toString_utf8
          Fixture.URLSearchParams (Fixture.signed (lit "v0=abc"))
          (Some Fixture.secret) 1700000012345).
Proof.
  apply (verifySlackSignature_other_length_throws
           Fixture.ToNumber Fixture.toString_utf8 Fixture.URLSearchParams
           (Fixture.signed (lit "v0=abc")) Fixture.secret
           (lit "v0=abc") (lit "1700000000") 1700000012345);
    first [ by vm_compute | discriminate ].
Defined.



(** A correctly signed, fresh request is passed on. *)
Example verifySlackSignature_accepts_signed :
  result
    (verifySlackSignature Fixture.ToNumber Fixture.toString_utf8
       Fixture.URLSearchParams (Fixture.signed Fixture.signature)
       (Some Fixture.secret) 1700000012345)
  = Next.
Proof. by vm_compute. Qed.

(** ** SessionBoardSearch *)

Lemma pushIfMatches_added (rs : list searchResult) (a : article)
  (content q : jsstring) :
  exists added,
    pushIfMatches rs a content q = rs ++ added
    /\ sublist (map article_of added) [a].
Proof.
  unfold pushIfMatches. destruct (contentMatches content q).
  - eexists. split; [done|]. destruct a. simpl. done.
  - exists []. rewrite app_nil_r. split; [done|]. apply sublist_nil_l.
Qed.

Lemma sublist_map {A B : Type} (f : A -> B) (l k : list A) :
  sublist l k -> sublist (map f l) (map f k).
Proof. induction 1; simpl; by constructor. Qed.

Lemma fetches_of_nil (u : jsstring) (l : list fetch) :
  fetches_of u l = [] <-> ~ In u (map f_url l).
Proof.
  induction l as [|f l IH]; simpl; [tauto|].
  destruct (bool_decide_reflect (f_url f = u)) as [Heq|Hne].
  - split; [done | intros H; destruct H; by left].
  - rewrite IH. tauto.
Qed.

Lemma answered_of_fetches (u : jsstring) (l : list fetch) :
  fetches_of u l = [] -> answered_of u l = [].
Proof.
  induction l as [|f l IH]; simpl; [done|].
  destruct (bool_decide (f_url f = u)); [done|].
  rewrite andb_false_r. exact IH.
Qed.

Lemma answered_once (u : jsstring) (new : list fetch) :
  (forall l1 l2, new = l1 ++ Fetch u true :: l2 -> ~ In u (map f_url l2)) ->
  (length (answered_of u new) <= 1)%nat.
Proof.
  induction new as [|f new IH]; intros H; simpl; [lia|].
  destruct f as [v [|]]; simpl.
  - destruct (bool_decide_reflect (v = u)) as [->|Hne].
    + simpl. rewrite answered_of_fetches; [simpl; lia|].
      apply fetches_of_nil. by apply (H [] new).
    + apply IH. intros l1 l2 ->. by apply (H (Fetch v true :: l1) l2).
  - apply IH. intros l1 l2 ->. by apply (H (Fetch v false :: l1) l2).
Qed.

Lemma fold_pushArticle (elements : list anchor) (articles : list article) :
  fold_left pushArticle elements articles
  = articles ++ map article_at (List.filter kept elements).
Proof.
  revert articles; induction elements as [|e elements IH]; intros articles;
    simpl; [by rewrite app_nil_r|].
  rewrite IH. unfold pushArticle. fold (kept e). fold (article_at e).
  destruct (kept e); simpl; [by rewrite <- app_assoc | done].
Qed.

Section SearchFacts.

Variable network : list fetch -> jsstring -> option jsstring.
Variable anchors_of : jsstring -> list anchor.
Variable body_text : jsstring -> jsstring.
Variable toLowerCase : jsstring -> jsstring.

Local Abbreviation turn := (searchArticle network body_text toLowerCase).
Local Abbreviation loop := (forArticles network body_text toLowerCase).
Local Abbreviation crawl := (searchArticles network body_text toLowerCase).
Local Abbreviation search :=
  (searchKnowledgeBase network anchors_of body_text toLowerCase).
Local Abbreviation discover := (discoverArticles anchors_of).

(** One turn of the loop, case by case. *)
Lemma searchArticle_cached (a : article) (q : jsstring)
  (rs : list searchResult) (w : world) (content : jsstring) :
  cache w !! url a = Some content ->
  turn a q rs w
  = (Return (pushIfMatches rs a content q),
     World (cache w) (requests w) (logged w) (delays w ++ [500])).
Proof.
  intros H. unfold searchArticle, try_catch, bind, cache_has, cache_get.
  rewrite bool_decide_true by (rewrite H; eauto).
  cbv beta iota. rewrite H. reflexivity.
Qed.

Lemma searchArticle_fetched (a : article) (q : jsstring)
  (rs : list searchResult) (w : world) (data : jsstring) :
  cache w !! url a = None ->
  network (requests w) (url a) = Some data ->
  turn a q rs w
  = (Return (pushIfMatches rs a (toLowerCase (body_text data)) q),
     World (<[url a := toLowerCase (body_text data)]> (cache w))
           (requests w ++ [Fetch (url a) true]) (logged w)
           (delays w ++ [500])).
Proof.
  intros H Hnet. unfold searchArticle, try_catch, bind, cache_has, axios_get.
  rewrite bool_decide_false by (rewrite H; by intros [? ?]).
  cbv beta iota. rewrite Hnet. reflexivity.
Qed.

Lemma searchArticle_failed (a : article) (q : jsstring)
  (rs : list searchResult) (w : world) :
  cache w !! url a = None ->
  network (requests w) (url a) = None ->
  turn a q rs w
  = (Return rs,
     World (cache w) (requests w ++ [Fetch (url a) false])
           (logged w ++ [ErrorFetching (url a) (AxiosError (url a))])
           (delays w)).
Proof.
  intros H Hnet. unfold searchArticle, try_catch, bind, cache_has, axios_get.
  rewrite bool_decide_false by (rewrite H; by intros [? ?]).
  cbv beta iota. rewrite Hnet. reflexivity.
Qed.

Lemma forArticles_crawled (articles : list article) (q : jsstring)
  (rs : list searchResult) (w : world) :
  exists rs' w',
    loop articles q rs w = (Return rs', w') /\ crawled articles rs rs' w w'.
Proof.
  revert rs w; induction articles as [|a rest IH]; intros rs w.
  - exists rs, w. split; [done|].
    apply (Crawled [] rs rs w w [] []); rewrite ?app_nil_r; try done.
    + intros u _ [].
    + intros l1 l2 u H. by destruct l1.
  - cbn [forArticles]. unfold bind at 1.
    destruct (cache w !! url a) as [content|] eqn:Hc;
      [|destruct (network (requests w) (url a)) as [data|] eqn:Hnet].
    + rewrite (searchArticle_cached a q rs w content Hc).
      destruct (pushIfMatches_added rs a content q) as (add1 & -> & Hadd1).
      destruct (IH (rs ++ add1)
                  (World (cache w) (requests w) (logged w) (delays w ++ [500])))
        as (rs' & w' & -> & [new added Hreq Hres Hord Hask Hsub Hhit Honce Hst]).
      cbn [cache requests] in *.
      exists rs', w'. split; [done|].
      apply (Crawled _ _ _ _ _ new (add1 ++ added)); try done.
      * by rewrite Hres, app_assoc.
      * rewrite map_app. by apply (sublist_app _ [a]).
      * by apply sublist_cons.
    + rewrite (searchArticle_fetched a q rs w data Hc Hnet).
      set (content := toLowerCase (body_text data)).
      destruct (pushIfMatches_added rs a content q) as (add1 & -> & Hadd1).
      destruct (IH (rs ++ add1)
                  (World (<[url a := content]> (cache w))
                     (requests w ++ [Fetch (url a) true]) (logged w)
                     (delays w ++ [500])))
        as (rs' & w' & -> & [new added Hreq Hres Hord Hask Hsub Hhit Honce Hst]).
      cbn [cache requests] in *.
      exists rs', w'. split; [done|].
      apply (Crawled _ _ _ _ _ (Fetch (url a) true :: new) (add1 ++ added)).
      * by rewrite Hreq, <- app_assoc.
      * by rewrite Hres, app_assoc.
      * rewrite map_app. by apply (sublist_app _ [a]).
      * simpl. by apply sublist_skip.
      * etrans; [|exact Hsub]. by apply insert_subseteq.
      * intros u Hu [Hx|Hin];
          [simpl in Hx; subst u; rewrite Hc in Hu; by destruct Hu|].
        apply (Hhit u); [|done].
        destruct Hu as [c Hu]. exists c.
        rewrite lookup_insert_ne; [done|]. intros <-. congruence.
      * intros l1 l2 u Heq. destruct l1 as [|f l1]; simplify_eq/=.
        -- apply Hhit. rewrite lookup_insert_eq. eauto.
        -- by apply (Honce l1 l2 u).
      * intros u [[= <-]|Hin]; [|by apply Hst].
        exists content. eapply lookup_weaken; [|exact Hsub].
        apply lookup_insert_eq.
    + rewrite (searchArticle_failed a q rs w Hc Hnet).
      destruct (IH rs
                  (World (cache w) (requests w ++ [Fetch (url a) false])
                     (logged w
                      ++ [ErrorFetching (url a) (AxiosError (url a))])
                     (delays w)))
        as (rs' & w' & -> & [new added Hreq Hres Hord Hask Hsub Hhit Honce Hst]).
      cbn [cache requests] in *.
      exists rs', w'. split; [done|].
      apply (Crawled _ _ _ _ _ (Fetch (url a) false :: new) added);
        try done.
      * by rewrite Hreq, <- app_assoc.
      * by apply sublist_cons.
      * simpl. by apply sublist_skip.
      * intros u Hu [Hx|Hin];
          [simpl in Hx; subst u; rewrite Hc in Hu; by destruct Hu|].
        by apply (Hhit u).
      * intros l1 l2 u Heq. destruct l1 as [|f l1]; simplify_eq/=.
        by apply (Honce l1 l2 u).
      * intros u [[=]|Hin]. by apply Hst.
Qed.

Lemma searchArticles_crawled (articles : list article) (query : jsstring)
  (w : world) :
  exists rs w',
    crawl articles query w = (Return (take 5 rs), w')
    /\ crawled (take 10 articles) [] rs w w'.
Proof.
  destruct (forArticles_crawled (take 10 articles) (toLowerCase query) [] w)
    as (rs & w' & Hloop & Hcrawled).
  exists rs, w'. split; [|done].
  unfold searchArticles, bind. by rewrite Hloop.
Qed.

Lemma searchKnowledgeBase_run (query : jsstring) (w : world) :
  exists results w',
    search query w = (Return results, w')
    /\ (length results <= 5)%nat
    /\ match network (requests w) baseUrl with
       | None => results = []
       | Some data =>
           sublist (map article_of results) (take 10 (discover data))
           /\ exists new,
                requests w' = requests w ++ Fetch baseUrl true :: new
                /\ sublist (map f_url new)
                           (map url (take 10 (discover data)))
                /\ (length new <= 10)%nat
       end.
Proof.
  unfold searchKnowledgeBase, try_catch, bind at 1, axios_get.
  destruct (network (requests w) baseUrl) as [data|] eqn:Hnet.
  - destruct (searchArticles_crawled (discover data) query
                (World (cache w) (requests w ++ [Fetch baseUrl true])
                   (logged w) (delays w)))
      as (rs & w' & Hcrawl & [new added Hreq Hres Hord Hask _ _ _ _]).
    cbn [requests] in Hreq. simpl in Hres. subst added.
    exists (take 5 rs), w'. unfold bind. rewrite Hcrawl.
    split; [done|]. split; [rewrite length_take; lia|]. split.
    + etrans; [|exact Hord]. apply sublist_map, sublist_take.
    + exists new. split; [by rewrite Hreq, <- app_assoc|]. split; [done|].
      apply sublist_length in Hask.
      rewrite !length_map, length_take in Hask. lia.
  - eexists [], _. split; [reflexivity|]. split; [simpl; lia | done].
Qed.

(** C4: a search answers at most 5 results; they are results for
    articles among the first 10 discovered, in the order of discovery;
    and the article pages requested are pages of those first 10, in
    that order.  The articles after the tenth have no part in it. *)
Theorem searchKnowledgeBase_capped (query : jsstring) (w : world) :
  (exists results w',
     search query w = (Return results, w')
     /\ (length results <= 5)%nat
     /\ match network (requests w) baseUrl with
        | None => results = []
        | Some data =>
            sublist (map article_of results) (take 10 (discover data))
            /\ exists new,
                 requests w' = requests w ++ Fetch baseUrl true :: new
                 /\ sublist (map f_url new)
                            (map url (take 10 (discover data)))
                 /\ (length new <= 10)%nat
        end)
  /\ (forall articles articles' : list article,
        take 10 articles = take 10 articles' ->
        crawl articles query w = crawl articles' query w).
Proof.
  split; [apply searchKnowledgeBase_run|].
  intros articles articles' H. unfold searchArticles. by rewrite H.
Qed.

(** C7: when the landing page cannot be fetched the search answers the
    empty list, having logged the error; an article whose page cannot be
    fetched is logged and skipped, and the loop goes on with the
    articles after it; neither [searchArticles] nor
    [searchKnowledgeBase] ever throws. *)
Theorem search_survives_failed_fetches (query : jsstring) (w : world) :
  (network (requests w) baseUrl = None ->
   search query w
   = (Return [],
      World (cache w) (requests w ++ [Fetch baseUrl false])
            (logged w ++ [SearchError (AxiosError baseUrl)]) (delays w)))
  /\ (forall (a : article) (rest : list article) (rs : list searchResult),
        cache w !! url a = None ->
        network (requests w) (url a) = None ->
        loop (a :: rest) query rs w
        = loop rest query rs
            (World (cache w) (requests w ++ [Fetch (url a) false])
               (logged w ++ [ErrorFetching (url a) (AxiosError (url a))])
               (delays w)))
  /\ (forall articles, exists results w',
        crawl articles query w = (Return results, w'))
  /\ (exists results w', search query w = (Return results, w')).
Proof.
  split; [|split; [|split]].
  - intros Hnet.
    unfold searchKnowledgeBase, try_catch, bind at 1, axios_get.
    by rewrite Hnet.
  - intros a rest rs Hc Hnet. cbn [forArticles]. unfold bind at 1.
    by rewrite (searchArticle_failed a query rs w Hc Hnet).
  - intros articles.
    destruct (searchArticles_crawled articles query w) as (rs & w' & H & _).
    eauto.
  - destruct (searchKnowledgeBase_run query w) as (results & w' & H & _).
    eauto.
Qed.

(** C9 (amended): a cache entry, once put, is what every later get
    answers, also after a crawl; and within one crawl an address whose
    content is cached at the start is not requested at all, every
    address is answered by the network at most once, no request for an
    address follows an answered one, and every answered address is
    cached afterwards.  A request that fails leaves no entry, so the
    next encounter of its address requests it again. *)
Theorem searchArticles_fetches_once (articles : list article)
  (query : jsstring) (w : world) :
  (forall u content w0,
     fst (cache_get u (snd (cache_set u content w0))) = Return (Some content))
  /\ exists results w' new,
       crawl articles query w = (Return results, w')
       /\ requests w' = requests w ++ new
       /\ (forall u content,
             cache w !! u = Some content -> cache w' !! u = Some content)
       /\ (forall u, is_Some (cache w !! u) -> fetches_of u new = [])
       /\ (forall u, (length (answered_of u new) <= 1)%nat)
       /\ (forall l1 l2 u,
             new = l1 ++ Fetch u true :: l2 -> fetches_of u l2 = [])
       /\ (forall u, In (Fetch u true) new -> is_Some (cache w' !! u)).
Proof.
  split.
  - intros u content w0. unfold cache_get, cache_set. simpl.
    by rewrite lookup_insert_eq.
  - destruct (searchArticles_crawled articles query w)
      as (rs & w' & H & [new added Hreq _ _ _ Hsub Hhit Honce Hst]).
    exists (take 5 rs), w', new. split; [done|]. split; [done|].
    split; [|split; [|split; [|split]]].
    + intros u content Hu. by eapply lookup_weaken.
    + intros u Hu. by apply fetches_of_nil, Hhit.
    + intros u. apply answered_once. intros l1 l2. apply Honce.
    + intros l1 l2 u Heq. by eapply fetches_of_nil, Honce.
    + done.
Qed.


End SearchFacts.

(** The scenario of the specification: twelve links with long enough
    titles, of which the first ten are visited; two of those match the
    query, the first through one word only (empty snippet), the second
    with the whole phrase. *)
Example search_scenario :
  let run :=
    searchKnowledgeBase Fixture.online Fixture.anchors_of Fixture.body_text
      Fixture.toLowerCase (lit "Workspace Settings") Fixture.fresh in
  length (discoverArticles Fixture.anchors_of Fixture.landing) = 12%nat
  /\ fst run
     = Return
         [SearchResult (lit "Guide charlie")
            (origin ++ lit "/en/knowledge-base/charlie") [];
          SearchResult (lit "Guide hotel")
            (origin ++ lit "/en/knowledge-base/hotel")
            (lit "all workspace settings explained...")]
  /\ map f_url (requests (snd run))
     = baseUrl
       :: map url (take 10 (discoverArticles Fixture.anchors_of
                              Fixture.landing))
  /\ delays (snd run) = repeat 500 10.
Proof. by vm_compute. Qed.

Lemma search_survives_failed_fetches_witness :
  searchKnowledgeBase Fixture.offline Fixture.anchors_of Fixture.body_text
    Fixture.toLowerCase (lit "setup") Fixture.fresh
  = (Return [],
     World ∅ [Fetch baseUrl false] [SearchError (AxiosError baseUrl)] []).
Proof.
  apply (proj1 (search_survives_failed_fetches Fixture.offline
                  Fixture.anchors_of Fixture.body_text Fixture.toLowerCase
                  (lit "setup") Fixture.fresh)).
  reflexivity.
Defined.


(** C9, as stated, fails: with the network down, a crawl that meets one
    address twice requests it twice. *)
Lemma failed_fetch_repeated :
  map url Fixture.alpha_twice = [Fixture.alpha_url; Fixture.alpha_url]
  /\ fetches_of Fixture.alpha_url
       (requests
          (snd (searchArticles Fixture.offline Fixture.body_text
                  Fixture.toLowerCase Fixture.alpha_twice (lit "setup")
                  Fixture.fresh)))
     = [Fetch Fixture.alpha_url false; Fetch Fixture.alpha_url false].
Proof. split; by vm_compute. Qed.

(** With the network up, the second encounter is served from the
    cache. *)
Example answered_fetch_not_repeated :
  requests
    (snd (searchArticles Fixture.online Fixture.body_text
            Fixture.toLowerCase Fixture.alpha_twice (lit "setup")
            Fixture.fresh))
  = [Fetch Fixture.alpha_url true].
Proof. by vm_compute. Qed.


Lemma searchKnowledgeBase_capped_witness :
  searchArticles Fixture.online Fixture.body_text Fixture.toLowerCase
    (discoverArticles Fixture.anchors_of Fixture.landing)
    (lit "Workspace Settings") Fixture.fresh
  = searchArticles Fixture.online Fixture.body_text Fixture.toLowerCase
      (take 10 (discoverArticles Fixture.anchors_of Fixture.landing))
      (lit "Workspace Settings") Fixture.fresh.
Proof.
  apply (proj2 (searchKnowledgeBase_capped Fixture.online Fixture.anchors_of
                  Fixture.body_text Fixture.toLowerCase
                  (lit "Workspace Settings") Fixture.fresh)).
  by vm_compute.
Defined.

Lemma contentMatches_space_pieces_witness :
  contentMatches (lit "setup your workspace here") (lit "workspace settings")
  = true.
Proof.
  apply (proj2 (contentMatches_space_pieces
                  (lit "setup your workspace here")
                  (lit "workspace settings"))).
  right. exists (lit "workspace"). split.
  - split.
    + intros c Hc. repeat (destruct Hc as [<-|Hc]; [reflexivity|]).
      destruct Hc.
    + exists [], (lit " settings"). split; [reflexivity|].
      split; [by left|]. right. by exists space, (lit "settings").
  - by exists (lit "setup your "), (lit " here").
Defined.



Lemma searchArticles_fetches_once_witness :
  fst (cache_get Fixture.alpha_url
         (snd (cache_set Fixture.alpha_url (lit "nothing to see here")
                 Fixture.fresh)))
  = Return (Some (lit "nothing to see here")).
Proof.
  apply (proj1 (searchArticles_fetches_once Fixture.online Fixture.body_text
                  Fixture.toLowerCase Fixture.alpha_twice (lit "setup")
                  Fixture.fresh)).
Defined.

(** * Further properties *)

(** ** The authenticator *)

Lemma Z_of_byte_of_Z (z : Z) : Z_of_byte (byte_of_Z z) = z mod 256.
Proof.
  unfold Z_of_byte, byte_of_Z.
  assert (0 <= z mod 256 < 256) as Hz by (apply Z.mod_pos_bound; lia).
  destruct (Byte.of_N (Z.to_N (z mod 256))) as [b|] eqn:E.
  - apply Byte.to_of_N in E. rewrite E. lia.
  - apply Byte.of_N_None_iff in E. lia.
Qed.

(** The code units of a string are 16-bit numbers. *)
Definition wellFormed (s : jsstring) : Prop :=
  Forall (fun c => (c < 65536)%N) s.

(** A code unit of 128 or more is encoded with a first byte of 128 or
    more. *)
Lemma utf8_head_high (c : N) (s : jsstring) :
  (128 <= c < 65536)%N ->
  exists b rest, utf8 (c :: s) = b :: rest /\ 128 <= Z_of_byte b.
Proof.
  intros [Hlo Hhi]. cbn [utf8].
  destruct (N.ltb_spec c 128) as [?|_]; [lia|].
  assert (forall z, 128 <= z < 256 -> 128 <= Z_of_byte (byte_of_Z z)) as Hb.
  { intros z Hz. rewrite Z_of_byte_of_Z, Z.mod_small; lia. }
  assert (128 <= Z_of_byte (byte_of_Z (224 + 65533 / 4096))) as Hrepl
    by (apply Hb; split; [done | reflexivity]).
  destruct (N.ltb_spec c 2048) as [H2|H2].
  { do 2 eexists. split; [reflexivity|]. apply Hb.
    Z.div_mod_to_equations. lia. }
  destruct (isHigh c) eqn:Hh.
  { unfold isHigh in Hh. apply andb_true_iff in Hh as [Hh1 Hh2].
    apply N.leb_le in Hh1. apply N.ltb_lt in Hh2.
    destruct s as [|d s]; [by do 2 eexists|].
    destruct (isLow d) eqn:Hl; [|by do 2 eexists].
    unfold isLow in Hl. apply andb_true_iff in Hl as [Hl1 Hl2].
    apply N.leb_le in Hl1. apply N.ltb_lt in Hl2.
    do 2 eexists. split; [reflexivity|]. apply Hb.
    Z.div_mod_to_equations. lia. }
  destruct (isLow c); [by do 2 eexists|].
  do 2 eexists. split; [reflexivity|]. apply Hb.
  Z.div_mod_to_equations. lia.
Qed.

Lemma utf8_ascii_cons (c : N) (s : jsstring) :
  (c < 128)%N -> utf8 (c :: s) = byte_of_Z (Z.of_N c) :: utf8 s.
Proof. intros Hc. cbn [utf8]. apply N.ltb_lt in Hc. by rewrite Hc. Qed.

(** A string that encodes to the bytes of an ASCII string is that
    string. *)
Lemma utf8_ascii_inj (s a : jsstring) :
  wellFormed s -> ascii_only a -> utf8 s = utf8 a -> s = a.
Proof.
  intros Hs; revert a; induction Hs as [|c s Hc _ IH]; intros a Ha Heq.
  - destruct Ha as [|d a Hd _]; [done|].
    rewrite utf8_ascii_cons in Heq by done. discriminate.
  - destruct (N.lt_ge_cases c 128) as [Hlt|Hge].
    + rewrite utf8_ascii_cons in Heq by done.
      destruct Ha as [|d a Hd Ha]; [discriminate|].
      rewrite utf8_ascii_cons in Heq by done.
      injection Heq as Hb Heq. f_equal; [|by apply IH].
      apply (f_equal Z_of_byte) in Hb.
      rewrite !Z_of_byte_of_Z, !Z.mod_small in Hb; lia.
    + destruct (utf8_head_high c s) as (b & rest & Hu & Hb); [lia|].
      rewrite Hu in Heq. destruct Ha as [|d a Hd _]; [discriminate|].
      rewrite utf8_ascii_cons in Heq by done.
      injection Heq as -> _.
      rewrite Z_of_byte_of_Z, Z.mod_small in Hb; lia.
Qed.

(** A lower-case hexadecimal digit. *)
Definition isHexDigit (c : N) : bool :=
  ((48 <=? c) && (c <=? 57) || (97 <=? c) && (c <=? 102))%N.

Lemma hex_digits (bs : buffer) : Forall (fun c => isHexDigit c = true) (hex bs).
Proof.
  induction bs as [|b bs IH]; [constructor|].
  unfold hex in *. cbn [flat_map app].
  constructor; [|constructor; [|exact IH]]; by destruct b.
Qed.

Section AuthenticatorMore.

Variable ToNumber : jsstring -> number.
Variable toString_utf8 : buffer -> jsstring.
Variable URLSearchParams : jsstring -> list (jsstring * jsstring).

Local Abbreviation verify :=
  (verifySlackSignature ToNumber toString_utf8 URLSearchParams).
Local Abbreviation expected := (expectedSignature toString_utf8).
Local Abbreviation k_sig := (lit "x-slack-signature").
Local Abbreviation k_ts := (lit "x-slack-request-timestamp").

(** X6: The signature the middleware expects is "v0=" followed by 64
    lower-case hexadecimal digits, whatever the secret, the timestamp
    and the body. *)
Theorem expectedSignature_format (secret ts : jsstring) (req : request) :
  exists digits,
    expected secret ts req = lit "v0=" ++ digits
    /\ length digits = 64%nat
    /\ Forall (fun c => isHexDigit c = true) digits.
Proof.
  eexists. split; [reflexivity|]. unfold createHmac_sha256_hex. split.
  - by rewrite length_hex, length_hmac_sha256.
  - apply hex_digits.
Qed.

Lemma expectedSignature_ascii (secret ts : jsstring) (req : request) :
  ascii_only (expected secret ts req).
Proof.
  apply Forall_app. split; [by repeat constructor | apply hex_ascii].
Qed.


(** X2: Without a signing secret no request is ever passed on: the
    middleware answers 401 or throws a TypeError. *)
Theorem verifySlackSignature_no_secret (req : request) (now : Z) :
  (exists text, result (verify req None now) = Sent 401 text)
  \/ result (verify req None now) = Threw TypeError.
Proof.
  unfold verifySlackSignature.
  destruct (negb (truthy (headers req !! k_sig))
            || negb (truthy (headers req !! k_ts))); [left; by eexists|].
  destruct (stale ToNumber now _); [left; by eexists | by right].
Qed.

Lemma verify_fresh_not_timeout
  (req : request) (signingSecret : option jsstring) (now : Z)
  (sig ts : jsstring) :
  headers req !! k_sig = Some sig -> sig <> [] ->
  headers req !! k_ts = Some ts -> ts <> [] ->
  stale ToNumber now ts = false ->
  ~ StaleRequest (verify req signingSecret now).
Proof.
  intros Hsig Hsig' Hts Hts' Hfresh [H _]. revert H.
  unfold verifySlackSignature.
  rewrite Hsig, Hts, !truthy_Some by done.
  cbn [negb orb default from_option id]. rewrite Hfresh.
  destruct signingSecret as [secret|]; [|done].
  by destruct (timingSafeEqual _ _) as [[|]|].
Qed.

Lemma verify_stale_timeout
  (req : request) (signingSecret : option jsstring) (now : Z)
  (sig ts : jsstring) :
  headers req !! k_sig = Some sig -> sig <> [] ->
  headers req !! k_ts = Some ts -> ts <> [] ->
  stale ToNumber now ts = true ->
  StaleRequest (verify req signingSecret now).
Proof.
  intros Hsig Hsig' Hts Hts' Hstale. unfold verifySlackSignature.
  rewrite Hsig, Hts, !truthy_Some by done.
  cbn [negb orb default from_option id]. by rewrite Hstale.
Qed.

(** X3: The freshness window is closed and symmetric: a request with both
    headers and a timestamp that is a number is answered "Request
    timeout" exactly when the timestamp lies more than 300 seconds
    before or after the current second; at 300 seconds it is not. *)
Theorem verifySlackSignature_stale_iff
  (req : request) (signingSecret : option jsstring) (now : Z)
  (sig ts : jsstring) (t : Q) :
  headers req !! k_sig = Some sig -> sig <> [] ->
  headers req !! k_ts = Some ts -> ts <> [] ->
  ToNumber ts = Finite t ->
  StaleRequest (verify req signingSecret now)
  <-> (inject_Z 300 < Qabs (inject_Z (now / 1000) - t))%Q.
Proof.
  intros Hsig Hsig' Hts Hts' Ht.
  assert (stale ToNumber now ts
          = negb (Qle_bool (Qabs (inject_Z (now / 1000) - t)) (inject_Z 300)))
    as Hstale by (unfold stale; by rewrite Ht).
  destruct (Qle_bool _ _) eqn:Hle; simpl in Hstale.
  - apply Qle_bool_iff in Hle. split.
    + intros H. by eapply verify_fresh_not_timeout in H.
    + intros H. by apply Qlt_not_le in H.
  - split.
    + intros _. apply Qnot_le_lt. rewrite <- Qle_bool_iff. by rewrite Hle.
    + intros _. by eapply verify_stale_timeout.
Qed.

(** X4: A timestamp that is not a number is never treated as stale, on any
    day: the request goes on to the signature comparison.  An infinite
    timestamp is always stale. *)
Theorem verifySlackSignature_timestamp_not_a_number
  (req : request) (signingSecret : option jsstring) (now : Z)
  (sig ts : jsstring) :
  headers req !! k_sig = Some sig -> sig <> [] ->
  headers req !! k_ts = Some ts -> ts <> [] ->
  (ToNumber ts = NaN -> ~ StaleRequest (verify req signingSecret now))
  /\ (forall negative,
        ToNumber ts = Infinity negative ->
        StaleRequest (verify req signingSecret now)).
Proof.
  intros Hsig Hsig' Hts Hts'. split.
  - intros H. eapply verify_fresh_not_timeout; try done. by apply stale_NaN.
  - intros negative H. eapply verify_stale_timeout; try done.
    unfold stale. by rewrite H.
Qed.

(** X5: A header that is there and empty counts as missing, and the check
    for missing credentials comes first: such a request is answered
    "Unauthorized" however old its timestamp is. *)
Theorem verifySlackSignature_empty_header
  (req : request) (signingSecret : option jsstring) (now : Z) :
  headers req !! k_sig = Some [] \/ headers req !! k_ts = Some [] ->
  MissingCredentials (verify req signingSecret now)
  /\ req_after (verify req signingSecret now) = req.
Proof.
  intros H. unfold verifySlackSignature.
  destruct H as [-> | ->]; cbn [truthy negb orb]; [done|].
  by rewrite orb_true_r.
Qed.

End AuthenticatorMore.

(** ** The matcher *)

Lemma length_trimStart (s : jsstring) : (length (trimStart s) <= length s)%nat.
Proof.
  induction s as [|c s IH]; simpl; [lia|].
  destruct (isWhiteSpace c); simpl; lia.
Qed.

Lemma length_trim (s : jsstring) : (length (trim s) <= length s)%nat.
Proof.
  unfold trim, trimEnd. rewrite length_rev.
  etrans; [apply length_trimStart|]. rewrite length_rev.
  apply length_trimStart.
Qed.

Lemma length_substring (s : jsstring) (a b : Z) :
  0 <= a <= b -> (length (substring s a b) <= Z.to_nat (b - a))%nat.
Proof.
  intros H. unfold substring, clamp. rewrite length_take. lia.
Qed.

(** X8: The snippet is empty exactly when the query does not occur in the
    content; otherwise it ends with three dots; and it is never longer
    than 303 code units. *)
Theorem extractSnippet_shape (content query : jsstring) :
  (extractSnippet content query = [] <-> ~ occurs query content)
  /\ (occurs query content ->
      exists text, extractSnippet content query = text ++ lit "...")
  /\ (length (extractSnippet content query) <= 303)%nat.
Proof.
  unfold extractSnippet.
  destruct (includes content query) eqn:Hinc.
  - assert (occurs query content) as Hocc by (by apply includes_spec).
    destruct (occurs_first _ _ Hocc) as [n Hn].
    rewrite (indexOf_first n) by done.
    destruct (Z.eqb_spec (Z.of_nat n) (-1)) as [?|_]; [lia|].
    split; [|split].
    + split; [|done]. intros H. by apply app_eq_nil in H as [_ H].
    + intros _. by eexists.
    + rewrite length_app. simpl.
      pose proof (length_trim
                    (substring content (0 `max` (Z.of_nat n - 100))
                       (len content `min` (Z.of_nat n + 200)))) as Ht.
      destruct Hn as [(pre & post & -> & <-) _].
      pose proof (length_substring (pre ++ query ++ post)
                    (0 `max` (Z.of_nat (length pre) - 100))
                    (len (pre ++ query ++ post)
                     `min` (Z.of_nat (length pre) + 200))) as Hs.
      unfold len in *. rewrite !length_app in *. lia.
  - assert (~ occurs query content) as Hno.
    { intros H%includes_spec. congruence. }
    rewrite indexOf_absent by done. simpl.
    split; [done|]. split; [done | lia].
Qed.

(** X10: A query without a space matches exactly the contents it occurs
    in. *)
Theorem contentMatches_single_word (content query : jsstring) :
  ~ In space query ->
  contentMatches content query = true <-> occurs query content.
Proof.
  intros Hq. unfold contentMatches. rewrite split_free.
  - simpl. rewrite orb_false_r, orb_diag. apply includes_spec.
  - intros c Hc. apply N.eqb_neq. by intros ->.
Qed.

Lemma trimStart_keeps (a q b : jsstring) (x : N) (q' : jsstring) :
  q = x :: q' -> isWhiteSpace x = false ->
  exists a', trimStart (a ++ q ++ b) = a' ++ q ++ b.
Proof.
  intros -> Hx. induction a as [|c a [a' IH]]; simpl.
  - rewrite Hx. by exists [].
  - destruct (isWhiteSpace c); [by exists a' | by exists (c :: a)].
Qed.

Lemma trim_keeps (a q b : jsstring) (x y : N) (q1 q2 : jsstring) :
  q = x :: q1 -> isWhiteSpace x = false ->
  q = q2 ++ [y] -> isWhiteSpace y = false ->
  exists a' b', trim (a ++ q ++ b) = a' ++ q ++ b'.
Proof.
  intros Hq1 Hx Hq2 Hy.
  destruct (trimStart_keeps a q b x q1 Hq1 Hx) as [a' Ha].
  unfold trim, trimEnd. rewrite Ha.
  assert (rev (a' ++ q ++ b) = rev b ++ rev q ++ rev a') as ->
    by (by rewrite !rev_app_distr, <- app_assoc).
  destruct (trimStart_keeps (rev b) (rev q) (rev a') y (rev q2)) as [b' Hb].
  { by rewrite Hq2, rev_app_distr. }
  { done. }
  rewrite Hb. exists a', (rev b').
  by rewrite !rev_app_distr, !rev_involutive, <- app_assoc.
Qed.

(** X9: When the query occurs in the content, is at most 200 code units
    long and neither begins nor ends with white space, the snippet
    shows it. *)
Theorem extractSnippet_shows_query (content query : jsstring)
  (x y : N) (q1 q2 : jsstring) :
  query = x :: q1 -> isWhiteSpace x = false ->
  query = q2 ++ [y] -> isWhiteSpace y = false ->
  (length query <= 200)%nat ->
  occurs query content ->
  occurs query (extractSnippet content query).
Proof.
  intros Hq1 Hx Hq2 Hy Hlen Hocc.
  destruct (occurs_first _ _ Hocc) as [n Hn].
  unfold extractSnippet. rewrite (indexOf_first n) by done.
  destruct (Z.eqb_spec (Z.of_nat n) (-1)) as [?|_]; [lia|].
  destruct Hn as [(pre & post & -> & <-) _].
  rewrite substring_within by (unfold len; rewrite !length_app; lia).
  set (s := Z.to_nat (0 `max` (Z.of_nat (length pre) - 100))).
  set (e := Z.to_nat (len (pre ++ query ++ post)
                      `min` (Z.of_nat (length pre) + 200))).
  assert (s <= length pre)%nat as Hs by (unfold s; lia).
  assert (length pre + length query <= e)%nat as He.
  { unfold e, len. rewrite !length_app. lia. }
  assert (take (e - s) (drop s (pre ++ query ++ post))
          = drop s pre ++ query
            ++ take (e - length pre - length query) post) as ->.
  { rewrite drop_app_le by done. rewrite take_app_ge.
    2:{ rewrite length_drop. lia. }
    f_equal. rewrite length_drop. rewrite take_app_ge by lia.
    do 2 f_equal. lia. }
  destruct (trim_keeps (drop s pre) query
              (take (e - length pre - length query) post) x y q1 q2)
    as (a' & b' & ->); try done.
  exists a', (b' ++ lit "..."). by rewrite <- !app_assoc.
Qed.

(** ** The search *)

(** The result an article gets from the content cached for it. *)
Definition hit_result (cached : gmap jsstring jsstring) (q : jsstring)
  (a : article) : option searchResult :=
  match cached !! url a with
  | Some content =>
      if contentMatches content q
      then Some (withSnippet a (extractSnippet content q))
      else None
  | None => None
  end.

(** The line logged for a request that failed. *)
Definition failure_line (f : fetch) : log_line :=
  ErrorFetching (f_url f) (AxiosError (f_url f)).

Definition failed (l : list fetch) : list fetch :=
  List.filter (fun f => negb (f_ok f)) l.

Lemma pushIfMatches_app (rs : list searchResult) (a : article)
  (content q : jsstring) :
  pushIfMatches rs a content q
  = rs ++ (if contentMatches content q
           then [withSnippet a (extractSnippet content q)] else []).
Proof.
  unfold pushIfMatches. destruct (contentMatches content q); [done|].
  by rewrite app_nil_r.
Qed.

Section SearchMore.

Variable network : list fetch -> jsstring -> option jsstring.
Variable anchors_of : jsstring -> list anchor.
Variable body_text : jsstring -> jsstring.
Variable toLowerCase : jsstring -> jsstring.

Local Abbreviation loop := (forArticles network body_text toLowerCase).
Local Abbreviation crawl := (searchArticles network body_text toLowerCase).
Local Abbreviation search :=
  (searchKnowledgeBase network anchors_of body_text toLowerCase).
Local Abbreviation discover := (discoverArticles anchors_of).

(** The loop of [searchArticles] as a relation: from the results and
    the world before, over the articles, to the results and the world
    after.  One rule per way a turn can go. *)
Inductive visits (q : jsstring) :
  list article -> list searchResult -> world ->
  list searchResult -> world -> Prop :=
| visits_done rs w : visits q [] rs w rs w
| visits_hit a rest rs w content rs' w' :
    cache w !! url a = Some content ->
    visits q rest (pushIfMatches rs a content q)
      (World (cache w) (requests w) (logged w) (delays w ++ [500])) rs' w' ->
    visits q (a :: rest) rs w rs' w'
| visits_miss a rest rs w data rs' w' :
    cache w !! url a = None ->
    network (requests w) (url a) = Some data ->
    visits q rest (pushIfMatches rs a (toLowerCase (body_text data)) q)
      (World (<[url a := toLowerCase (body_text data)]> (cache w))
         (requests w ++ [Fetch (url a) true]) (logged w)
         (delays w ++ [500])) rs' w' ->
    visits q (a :: rest) rs w rs' w'
| visits_fail a rest rs w rs' w' :
    cache w !! url a = None ->
    network (requests w) (url a) = None ->
    visits q rest rs
      (World (cache w) (requests w ++ [Fetch (url a) false])
         (logged w ++ [failure_line (Fetch (url a) false)]) (delays w))
      rs' w' ->
    visits q (a :: rest) rs w rs' w'.

Lemma forArticles_visits (articles : list article) (q : jsstring)
  (rs : list searchResult) (w : world) :
  exists rs' w',
    loop articles q rs w = (Return rs', w') /\ visits q articles rs w rs' w'.
Proof.
  revert rs w; induction articles as [|a rest IH]; intros rs w.
  - exists rs, w. split; [done | constructor].
  - cbn [forArticles]. unfold bind at 1.
    destruct (cache w !! url a) as [content|] eqn:Hc;
      [|destruct (network (requests w) (url a)) as [data|] eqn:Hnet].
    + rewrite (searchArticle_cached network body_text toLowerCase
                 a q rs w content Hc).
      destruct (IH (pushIfMatches rs a content q)
                  (World (cache w) (requests w) (logged w)
                     (delays w ++ [500]))) as (rs' & w' & -> & Hv).
      exists rs', w'. split; [done|]. by eapply visits_hit.
    + rewrite (searchArticle_fetched network body_text toLowerCase
                 a q rs w data Hc Hnet).
      destruct (IH (pushIfMatches rs a (toLowerCase (body_text data)) q)
                  (World (<[url a := toLowerCase (body_text data)]> (cache w))
                     (requests w ++ [Fetch (url a) true]) (logged w)
                     (delays w ++ [500]))) as (rs' & w' & -> & Hv).
      exists rs', w'. split; [done|]. by eapply visits_miss.
    + rewrite (searchArticle_failed network body_text toLowerCase
                 a q rs w Hc Hnet).
      destruct (IH rs
                  (World (cache w) (requests w ++ [Fetch (url a) false])
                     (logged w
                      ++ [ErrorFetching (url a) (AxiosError (url a))])
                     (delays w))) as (rs' & w' & -> & Hv).
      exists rs', w'. split; [done|]. by eapply visits_fail.
Qed.

(** The cache only grows along a run. *)
Lemma visits_cache (q : jsstring) (articles : list article)
  (rs rs' : list searchResult) (w w' : world) :
  visits q articles rs w rs' w' -> cache w ⊆ cache w'.
Proof.
  induction 1 as [| | a rest rs w data rs' w' Hc Hnet _ IH |]; simpl in *;
    try done.
  etrans; [|exact IH]. by apply insert_subseteq.
Qed.

(** Requests, delays and log lines of a run. *)
Lemma visits_account (q : jsstring) (articles : list article)
  (rs rs' : list searchResult) (w w' : world) :
  visits q articles rs w rs' w' ->
  exists new k,
    requests w' = requests w ++ new
    /\ delays w' = delays w ++ repeat 500 k
    /\ logged w' = logged w ++ map failure_line (failed new)
    /\ (k + length (failed new) = length articles)%nat.
Proof.
  induction 1 as [rs w
                 | a rest rs w content rs' w' Hc _ (new & k & Hr & Hd & Hl & Hk)
                 | a rest rs w data rs' w' Hc Hnet _
                     (new & k & Hr & Hd & Hl & Hk)
                 | a rest rs w rs' w' Hc Hnet _
                     (new & k & Hr & Hd & Hl & Hk)];
    simpl in *.
  - exists [], 0%nat. by rewrite !app_nil_r.
  - exists new, (S k). split; [done|]. split; [|split; [done | lia]].
    by rewrite Hd, <- app_assoc.
  - exists (Fetch (url a) true :: new), (S k). simpl.
    split; [by rewrite Hr, <- app_assoc|].
    split; [by rewrite Hd, <- app_assoc|]. split; [done | lia].
  - exists (Fetch (url a) false :: new), k. simpl.
    split; [by rewrite Hr, <- app_assoc|]. split; [done|].
    split; [by rewrite Hl, <- app_assoc | lia].
Qed.

(** Every result added by a run matches on the content cached for its
    address at the end of the run. *)
Lemma visits_sound (q : jsstring) (articles : list article)
  (rs rs' : list searchResult) (w w' : world) :
  visits q articles rs w rs' w' ->
  exists added,
    rs' = rs ++ added
    /\ forall r, In r added ->
         exists content,
           cache w' !! res_url r = Some content
           /\ contentMatches content q = true
           /\ snippet r = extractSnippet content q.
Proof.
  induction 1 as [rs w
                 | a rest rs w content rs' w' Hc Hv (added & -> & Hs)
                 | a rest rs w data rs' w' Hc Hnet Hv (added & -> & Hs)
                 | a rest rs w rs' w' Hc Hnet Hv (added & -> & Hs)].
  - exists []. by rewrite app_nil_r.
  - rewrite pushIfMatches_app, <- app_assoc. eexists. split; [done|].
    intros r [Hr|Hr]%in_app_or; [|by apply Hs].
    destruct (contentMatches content q) eqn:Hm; [|done].
    destruct Hr as [<-|[]]. exists content. split; [|done].
    apply visits_cache in Hv. by eapply lookup_weaken.
  - rewrite pushIfMatches_app, <- app_assoc. eexists. split; [done|].
    intros r [Hr|Hr]%in_app_or; [|by apply Hs].
    destruct (contentMatches _ q) eqn:Hm; [|done].
    destruct Hr as [<-|[]]. eexists. split; [|done].
    apply visits_cache in Hv. eapply lookup_weaken; [|exact Hv].
    simpl. apply lookup_insert_eq.
  - by exists added.
Qed.

(** Whatever the cache holds after a run was there before, or is the
    lower-cased body text of a page the network returned during the
    run. *)
Lemma visits_provenance (q : jsstring) (articles : list article)
  (rs rs' : list searchResult) (w w' : world) :
  visits q articles rs w rs' w' ->
  exists new,
    requests w' = requests w ++ new
    /\ forall u content,
         cache w' !! u = Some content ->
         cache w !! u = Some content
         \/ exists l1 l2 data,
              new = l1 ++ Fetch u true :: l2
              /\ network (requests w ++ l1) u = Some data
              /\ content = toLowerCase (body_text data).
Proof.
  induction 1 as [rs w
                 | a rest rs w content rs' w' Hc _ (new & Hr & Hp)
                 | a rest rs w data rs' w' Hc Hnet _ (new & Hr & Hp)
                 | a rest rs w rs' w' Hc Hnet _ (new & Hr & Hp)];
    simpl in *.
  - exists []. rewrite app_nil_r. split; [done | by left].
  - by exists new.
  - exists (Fetch (url a) true :: new).
    split; [by rewrite Hr, <- app_assoc|].
    intros u content Hu. destruct (Hp u content Hu) as [Hin|Hin].
    + destruct (decide (url a = u)) as [<-|Hne].
      * rewrite lookup_insert_eq in Hin. injection Hin as <-.
        right. exists [], new, data. by rewrite app_nil_r.
      * left. by rewrite lookup_insert_ne in Hin.
    + destruct Hin as (l1 & l2 & data' & -> & Hn & ->).
      right. exists (Fetch (url a) true :: l1), l2, data'.
      split; [done|]. split; [|done]. by rewrite <- app_assoc in Hn.
  - exists (Fetch (url a) false :: new).
    split; [by rewrite Hr, <- app_assoc|].
    intros u content Hu. destruct (Hp u content Hu) as [Hin|Hin];
      [by left|].
    destruct Hin as (l1 & l2 & data' & -> & Hn & ->).
    right. exists (Fetch (url a) false :: l1), l2, data'.
    split; [done|]. split; [|done]. by rewrite <- app_assoc in Hn.
Qed.

(** A run over articles that are all cached asks nothing of the
    network. *)
Lemma visits_warm (q : jsstring) (articles : list article)
  (rs rs' : list searchResult) (w w' : world) :
  visits q articles rs w rs' w' ->
  (forall a, In a articles -> is_Some (cache w !! url a)) ->
  rs' = rs ++ omap (hit_result (cache w) q) articles
  /\ w' = World (cache w) (requests w) (logged w)
            (delays w ++ repeat 500 (length articles)).
Proof.
  induction 1 as [rs w
                 | a rest rs w content rs' w' Hc _ IH
                 | a rest rs w data rs' w' Hc Hnet _ _
                 | a rest rs w rs' w' Hc Hnet _ _]; intros Hall.
  - simpl. rewrite !app_nil_r. by destruct w.
  - destruct IH as [-> ->]; [intros b Hb; apply Hall; by right|].
    simpl. split.
    + rewrite pushIfMatches_app, <- app_assoc. f_equal.
      unfold hit_result at 2. rewrite Hc.
      by destruct (contentMatches content q).
    + by rewrite <- app_assoc.
  - destruct (Hall a) as [c Ha]; [by left | congruence].
  - destruct (Hall a) as [c Ha]; [by left | congruence].
Qed.

(** A run in which no request failed leaves every article cached, and
    its results are the ones the final cache gives. *)
Lemma visits_clean (q : jsstring) (articles : list article)
  (rs rs' : list searchResult) (w w' : world) :
  visits q articles rs w rs' w' ->
  logged w' = logged w ->
  rs' = rs ++ omap (hit_result (cache w') q) articles
  /\ forall a, In a articles -> is_Some (cache w' !! url a).
Proof.
  induction 1 as [rs w
                 | a rest rs w content rs' w' Hc Hv IH
                 | a rest rs w data rs' w' Hc Hnet Hv IH
                 | a rest rs w rs' w' Hc Hnet Hv _]; intros Hlog.
  - simpl. by rewrite app_nil_r.
  - destruct (IH Hlog) as [-> Hall].
    assert (cache w' !! url a = Some content) as Ha.
    { apply visits_cache in Hv. by eapply lookup_weaken. }
    split.
    + simpl. unfold hit_result at 2. rewrite Ha.
      rewrite pushIfMatches_app, <- app_assoc.
      by destruct (contentMatches content q).
    + intros b [<-|Hb]; [by eexists | by apply Hall].
  - destruct (IH Hlog) as [-> Hall].
    assert (cache w' !! url a = Some (toLowerCase (body_text data))) as Ha.
    { apply visits_cache in Hv. eapply lookup_weaken; [|exact Hv].
      simpl. apply lookup_insert_eq. }
    split.
    + simpl. unfold hit_result at 2. rewrite Ha.
      rewrite pushIfMatches_app, <- app_assoc.
      by destruct (contentMatches _ q).
    + intros b [<-|Hb]; [by eexists | by apply Hall].
  - apply visits_account in Hv as (new & k & _ & _ & Hl & _).
    simpl in Hl. rewrite Hlog, <- app_assoc in Hl.
    apply (f_equal length) in Hl. rewrite !length_app in Hl. simpl in Hl. lia.
Qed.

Lemma searchArticles_visits (articles : list article) (query : jsstring)
  (w : world) :
  exists rs w',
    crawl articles query w = (Return (take 5 rs), w')
    /\ visits (toLowerCase query) (take 10 articles) [] w rs w'.
Proof.
  destruct (forArticles_visits (take 10 articles) (toLowerCase query) [] w)
    as (rs & w' & Hloop & Hv).
  exists rs, w'. split; [|done].
  unfold searchArticles, bind. by rewrite Hloop.
Qed.

Lemma In_take {A : Type} (n : nat) (x : A) (l : list A) :
  In x (take n l) -> In x l.
Proof.
  intros H. rewrite <- (take_drop n l). apply in_or_app. by left.
Qed.

Lemma sublist_In {A : Type} (x : A) (l k : list A) :
  sublist l k -> In x l -> In x k.
Proof.
  induction 1 as [|y l k _ IH|y l k _ IH]; simpl; [done| |]; intuition.
Qed.

(** X12: Pauses and log lines of a crawl: 500 ms are waited once for every
    article visited without a failed request, served from the cache or
    not; one line is logged for every request that failed; and at most
    ten articles are visited. *)
Theorem searchArticles_accounting (articles : list article)
  (query : jsstring) (w : world) :
  exists results w' new k,
    crawl articles query w = (Return results, w')
    /\ requests w' = requests w ++ new
    /\ delays w' = delays w ++ repeat 500 k
    /\ logged w' = logged w ++ map failure_line (failed new)
    /\ (k + length (failed new) = Nat.min 10 (length articles))%nat.
Proof.
  destruct (searchArticles_visits articles query w) as (rs & w' & H & Hv).
  apply visits_account in Hv as (new & k & Hr & Hd & Hl & Hk).
  exists (take 5 rs), w', new, k. rewrite length_take in Hk. done.
Qed.

(** X13: Every result of a crawl is for one of the first ten articles, its
    page as cached after the crawl matches the lower-cased query, and
    its snippet is cut from that page. *)
Theorem searchArticles_results_sound (articles : list article)
  (query : jsstring) (w : world) :
  exists results w',
    crawl articles query w = (Return results, w')
    /\ forall r, In r results ->
         In (article_of r) (take 10 articles)
         /\ exists content,
              cache w' !! res_url r = Some content
              /\ contentMatches content (toLowerCase query) = true
              /\ snippet r = extractSnippet content (toLowerCase query).
Proof.
  destruct (searchArticles_visits articles query w) as (rs & w' & H & Hv).
  destruct (forArticles_crawled network body_text toLowerCase
              (take 10 articles) (toLowerCase query) [] w)
    as (rs0 & w0 & Hloop & [new added _ Hres Hord _ _ _ _ _]).
  destruct (forArticles_visits (take 10 articles) (toLowerCase query) [] w)
    as (rs1 & w1 & Hloop1 & _).
  assert (crawl articles query w = (Return (take 5 rs0), w0)) as H0.
  { unfold searchArticles, bind. by rewrite Hloop. }
  rewrite H in H0. injection H0 as Hrs <-.
  apply visits_sound in Hv as (added' & Hres' & Hs). simpl in Hres, Hres'.
  subst rs0 rs. exists (take 5 added'), w'. split; [done|].
  intros r Hr. split.
  - apply (sublist_In _ (map article_of added)); [done|].
    apply in_map. apply (In_take 5). by rewrite <- Hrs.
  - apply Hs. by apply (In_take 5).
Qed.

(** X14: Whatever the cache holds after a crawl either was there before or
    is the lower-cased body text of a page that the network returned
    for that address during the crawl: a failed request stores
    nothing, and no entry is overwritten. *)
Theorem searchArticles_cache_provenance (articles : list article)
  (query : jsstring) (w : world) :
  exists results w' new,
    crawl articles query w = (Return results, w')
    /\ requests w' = requests w ++ new
    /\ forall u content,
         cache w' !! u = Some content ->
         cache w !! u = Some content
         \/ exists l1 l2 data,
              new = l1 ++ Fetch u true :: l2
              /\ network (requests w ++ l1) u = Some data
              /\ content = toLowerCase (body_text data).
Proof.
  destruct (searchArticles_visits articles query w) as (rs & w' & H & Hv).
  apply visits_provenance in Hv as (new & Hr & Hp).
  by exists (take 5 rs), w', new.
Qed.

(** X15: When the first ten articles are all cached, a crawl sends no
    request and logs nothing; it only waits, and its results are read
    off the cache. *)
Theorem searchArticles_warm (articles : list article) (query : jsstring)
  (w : world) :
  (forall a, In a (take 10 articles) -> is_Some (cache w !! url a)) ->
  crawl articles query w
  = (Return (take 5 (omap (hit_result (cache w) (toLowerCase query))
                       (take 10 articles))),
     World (cache w) (requests w) (logged w)
           (delays w ++ repeat 500 (Nat.min 10 (length articles)))).
Proof.
  intros Hall.
  destruct (searchArticles_visits articles query w) as (rs & w' & H & Hv).
  apply visits_warm in Hv as [-> ->]; [|done].
  by rewrite length_take in H.
Qed.

(** X16: A crawl in which no request failed can be repeated at once: the
    second crawl answers the same results and sends no request. *)
Theorem searchArticles_repeat (articles : list article) (query : jsstring)
  (w w1 : world) (results : list searchResult) :
  crawl articles query w = (Return results, w1) ->
  logged w1 = logged w ->
  crawl articles query w1
  = (Return results,
     World (cache w1) (requests w1) (logged w1)
           (delays w1 ++ repeat 500 (Nat.min 10 (length articles)))).
Proof.
  intros Hrun Hlog.
  destruct (searchArticles_visits articles query w) as (rs & w' & H & Hv).
  rewrite Hrun in H. injection H as -> ->.
  apply visits_clean in Hv as [-> Hall]; [|done].
  destruct (searchArticles_visits articles query w') as (rs2 & w2 & H2 & Hv2).
  apply visits_warm in Hv2 as [-> ->]; [|done].
  by rewrite length_take in H2.
Qed.

Lemma discoverArticles_map (data : jsstring) :
  discover data
  = map article_at
      (List.filter (fun e => selected e && (3 <? len (trim (a_text e))))
         (anchors_of data)).
Proof.
  unfold discoverArticles. rewrite fold_pushArticle. simpl. f_equal.
  induction (anchors_of data) as [|e l IH]; simpl; [done|].
  destruct (selected e) eqn:He; simpl; [|exact IH].
  assert (kept e = (3 <? len (trim (a_text e)))) as ->; [|by rewrite IH].
  unfold kept, selected in *.
  destruct (a_href e) as [[|c href]|]; try done.
  destruct (Z.ltb_spec 3 (len (trim (a_text e)))) as [Hlt|Hge];
    [|by rewrite andb_false_r].
  destruct (trim (a_text e)); [unfold len in Hlt; simpl in Hlt; lia | done].
Qed.

(** X11: Every article discovered has a title longer than three code units
    with no white space at either end, and an address that contains
    "/knowledge-base/" and so is never the address of the landing
    page. *)
Theorem discoverArticles_wellformed (data : jsstring) (art : article) :
  In art (discover data) ->
  (3 < length (title art))%nat
  /\ (forall c t, title art = c :: t -> isWhiteSpace c = false)
  /\ (forall t c, title art = t ++ [c] -> isWhiteSpace c = false)
  /\ occurs (lit "/knowledge-base/") (url art)
  /\ url art <> baseUrl.
Proof.
  rewrite discoverArticles_map, in_map_iff.
  intros (e & <- & [_ He]%filter_In).
  apply andb_true_iff in He as [Hsel Hlen]. apply Z.ltb_lt in Hlen.
  unfold article_at, len in *. cbn [title url].
  destruct (trim_spec (a_text e)) as (l & r & _ & _ & _ & Hhd & Hlast).
  split; [lia|]. split; [done|]. split; [done|].
  unfold selected in Hsel. destruct (a_href e) as [href|]; [|done].
  cbn [default from_option id].
  assert (occurs (lit "/knowledge-base/")
            (if startsWith href (lit "http") then href else origin ++ href))
    as Hocc.
  { apply includes_spec in Hsel as (pre & post & ->).
    destruct (startsWith _ _).
    - by exists pre, post.
    - exists (origin ++ pre), post. by rewrite <- app_assoc. }
  split; [done|]. intros Heq. rewrite Heq in Hocc.
  apply includes_spec in Hocc. discriminate.
Qed.

End SearchMore.

(** ** The slash-command handler *)

(** A list with a separator between its elements. *)
Fixpoint separated {A : Type} (d : A) (l : list A) : list A :=
  match l with
  | [] => []
  | x :: l' =>
      match l' with
      | [] => [x]
      | _ :: _ => x :: d :: separated d l'
      end
  end.

Lemma length_separated {A : Type} (d : A) (l : list A) :
  l <> [] -> length (separated d l) = (2 * length l - 1)%nat.
Proof.
  induction l as [|x [|y l] IH]; [done | done |].
  intros _. cbn [separated length] in *. rewrite IH by done. lia.
Qed.

(** The callback of [forEach] in [sendSearchResults], for [n]
    results. *)
Definition push_result (n : Z) (blocks : list block) (result : searchResult)
  (index : Z) : list block :=
  let blocks := blocks ++ [result_block result] in
  if index <? n - 1 then blocks ++ [DividerBlock] else blocks.

Lemma forEach_from_separated (n index : Z) (results : list searchResult)
  (blocks : list block) :
  n = index + len_results results ->
  forEach_from (push_result n) results index blocks
  = blocks ++ separated DividerBlock (map result_block results).
Proof.
  revert index blocks; induction results as [|r [|r' results] IH];
    intros index blocks Hn.
  - by rewrite app_nil_r.
  - unfold len_results in Hn. cbn [length] in Hn.
    cbn [forEach_from map separated]. unfold push_result.
    destruct (Z.ltb_spec index (n - 1)); [lia | done].
  - unfold len_results in *. cbn [length] in Hn.
    change (forEach_from (push_result n) (r :: r' :: results) index blocks)
      with (forEach_from (push_result n) (r' :: results) (index + 1)
              (push_result n blocks r index)).
    rewrite IH by (cbn [length]; lia). unfold push_result.
    destruct (Z.ltb_spec index (n - 1)); [|lia].
    cbn [map separated]. by rewrite <- !app_assoc.
Qed.

Lemma result_blocks_separated (query : option jsstring)
  (results : list searchResult) :
  result_blocks query results
  = [header_block query; DividerBlock]
    ++ separated DividerBlock (map result_block results)
    ++ [footer_block].
Proof.
  unfold result_blocks, forEach.
  change (forEach_from (push_result (len_results results)) results 0
            [header_block query; DividerBlock] ++ [footer_block]
          = [header_block query; DividerBlock]
            ++ separated DividerBlock (map result_block results)
            ++ [footer_block]).
  rewrite (forEach_from_separated (len_results results)) by lia.
  by rewrite <- app_assoc.
Qed.

Lemma length_result_blocks (query : option jsstring)
  (results : list searchResult) :
  results <> [] ->
  length (result_blocks query results) = (2 * length results + 2)%nat.
Proof.
  intros Hne.
  rewrite result_blocks_separated, !length_app, length_separated.
  - rewrite length_map. simpl. destruct results; [done | simpl; lia].
  - by destruct results.
Qed.

(** X17: The blocks of a message for results are the header and a divider,
    the sections of the results in their order with one divider between
    two neighbours and none after the last, and the footer: twice the
    number of results plus two blocks. *)
Theorem result_blocks_layout (query : option jsstring)
  (results : list searchResult) :
  result_blocks query results
  = [header_block query; DividerBlock]
    ++ separated DividerBlock (map result_block results)
    ++ [footer_block]
  /\ (results <> [] ->
      length (result_blocks query results) = (2 * length results + 2)%nat).
Proof.
  split; [apply result_blocks_separated | apply length_result_blocks].
Qed.

Section HandlerFacts.

Variable network : list fetch -> jsstring -> option jsstring.
Variable anchors_of : jsstring -> list anchor.
Variable body_text : jsstring -> jsstring.
Variable toLowerCase : jsstring -> jsstring.
Variable slack : list (slack_call * bool) -> slack_call -> option jsstring.
Variable token : option jsstring.

Local Abbreviation handler :=
  (slashCommand network anchors_of body_text toLowerCase slack token).
Local Abbreviation search :=
  (searchKnowledgeBase network anchors_of body_text toLowerCase).

(** The query searched for: the text sent, or "getting started" when
    there is none or it is empty. *)
Definition query_of (text : option jsstring) : jsstring :=
  if truthy text then render text else lit "getting started".

Definition bearer : jsstring := lit "Bearer " ++ render token.

(** The call that posts the results of a search to a channel. *)
Definition message_call (channel text : option jsstring)
  (results : list searchResult) : slack_call :=
  SlackCall (lit "https://slack.com/api/chat.postMessage") bearer
    (match results with
     | [] => MessageData channel (no_results_text text) None
     | _ :: _ =>
         MessageData channel (found_text text results)
           (Some (result_blocks text results))
     end).

(** The call that tells the user that the search went wrong. *)
Definition apology_call (channel user : option jsstring) : slack_call :=
  SlackCall (lit "https://slack.com/api/chat.postEphemeral") bearer
    (EphemeralData channel user apology).

Definition acknowledged : reply :=
  JsonReply 200 "ephemeral" "Searching SessionBoard knowledge base...".

Lemma sendSearchResults_call (channel user text : option jsstring)
  (results : list searchResult) (s : server) :
  sendSearchResults slack token channel user text results s
  = match slack (calls s) (message_call channel text results) with
    | Some _ =>
        (Done tt,
         Server (searcher s)
           (calls s ++ [(message_call channel text results, true)])
           (replies s) (printed s))
    | None =>
        let e := Raised (AxiosError
                           (lit "https://slack.com/api/chat.postMessage")) in
        (Failed e,
         Server (searcher s)
           (calls s ++ [(message_call channel text results, false)])
           (replies s)
           (printed s ++ [SlackApiError (lit "chat.postMessage") e]))
    end.
Proof.
  unfold sendSearchResults, message_call, len_results.
  destruct results as [|r results].
  - change (Z.of_nat (length (@nil searchResult)) =? 0) with true.
    unfold hbind, postMessage, slack_request. fold bearer.
    change (lit "https://slack.com/api" ++ lit "/" ++ lit "chat.postMessage")
      with (lit "https://slack.com/api/chat.postMessage").
    by destruct (slack _ _).
  - change (Z.of_nat (length (r :: results)) =? 0) with false.
    unfold hbind, postMessage, slack_request. fold bearer.
    change (lit "https://slack.com/api" ++ lit "/" ++ lit "chat.postMessage")
      with (lit "https://slack.com/api/chat.postMessage").
    by destruct (slack _ _).
Qed.

(** The run of the handler on a [/sbhelp] command, case by case. *)
Lemma slashCommand_sbhelp (body : gmap jsstring jsstring) (s : server)
  (results : list searchResult) (w' : world) :
  body !! lit "command" = Some (lit "/sbhelp") ->
  replies s = [] ->
  search (query_of (body !! lit "text")) (searcher s) = (Return results, w') ->
  let msg := message_call (body !! lit "channel_id") (body !! lit "text")
               results in
  let apo := apology_call (body !! lit "channel_id") (body !! lit "user_id") in
  let e1 := Raised (AxiosError (lit "https://slack.com/api/chat.postMessage")) in
  let e2 := Raised (AxiosError
                      (lit "https://slack.com/api/chat.postEphemeral")) in
  handler body s
  = match slack (calls s) msg with
    | Some _ =>
        (Done tt,
         Server w' (calls s ++ [(msg, true)]) [acknowledged]
           (printed s ++ [SlashCommandReceived body]))
    | None =>
        match slack (calls s ++ [(msg, false)]) apo with
        | Some _ =>
            (Done tt,
             Server w' (calls s ++ [(msg, false); (apo, true)])
               [acknowledged]
               (printed s
                ++ [SlashCommandReceived body;
                    SlackApiError (lit "chat.postMessage") e1;
                    HandlerSearchError e1]))
        | None =>
            (Failed HeadersSent,
             Server w' (calls s ++ [(msg, false); (apo, false)])
               [acknowledged]
               (printed s
                ++ [SlashCommandReceived body;
                    SlackApiError (lit "chat.postMessage") e1;
                    HandlerSearchError e1;
                    SlackApiError (lit "chat.postEphemeral") e2;
                    CommandHandlerError e2]))
        end
    end.
Proof.
  intros Hcmd Hfresh Hsearch msg apo e1 e2.
  unfold slashCommand, htry at 1, hbind at 1, print.
  rewrite Hcmd, bool_decide_true by done.
  unfold hbind at 1, res_json at 1. cbn [replies]. rewrite Hfresh.
  unfold htry at 1, hbind at 1, on_searcher. cbn [searcher].
  fold (query_of (body !! lit "text")). rewrite Hsearch.
  rewrite sendSearchResults_call. cbn [calls searcher replies printed].
  fold msg.
  destruct (slack (calls s) msg) as [d|] eqn:Hm; [done|].
  cbn zeta. unfold hbind at 1, print. cbn [calls searcher replies printed].
  unfold hbind at 1, postEphemeral, slack_request. fold bearer.
  cbn [calls searcher replies printed].
  change (lit "https://slack.com/api" ++ lit "/" ++ lit "chat.postEphemeral")
    with (lit "https://slack.com/api/chat.postEphemeral").
  fold (apology_call (body !! lit "channel_id") (body !! lit "user_id")).
  fold apo.
  destruct (slack (calls s ++ [(msg, false)]) apo) as [d|] eqn:Ha.
  - unfold hret. by rewrite <- !app_assoc.
  - cbn [call_url apo apology_call]. unfold hbind, print, res_json.
    cbn [calls searcher replies printed]. by rewrite <- !app_assoc.
Qed.

Lemma slashCommand_other (body : gmap jsstring jsstring) (s : server) :
  body !! lit "command" <> Some (lit "/sbhelp") ->
  replies s = [] ->
  handler body s
  = (Done tt,
     Server (searcher s) (calls s)
       [JsonReply 200 "ephemeral" "Unknown command"]
       (printed s ++ [SlashCommandReceived body])).
Proof.
  intros Hcmd Hfresh.
  unfold slashCommand, htry, hbind at 1, print.
  rewrite bool_decide_false by done.
  unfold res_json. cbn [replies]. by rewrite Hfresh.
Qed.

(** X18: Whatever the command, the network and Slack do, the handler sends
    exactly one response, with status 200: the acknowledgement for
    [/sbhelp], "Unknown command" for anything else.  The response with
    status 500 is never sent, and the only error that leaves the
    handler is Express's refusal to send a second response. *)
Theorem slashCommand_one_reply (body : gmap jsstring jsstring) (s : server) :
  replies s = [] ->
  replies (snd (handler body s))
  = [if bool_decide (body !! lit "command" = Some (lit "/sbhelp"))
     then acknowledged
     else JsonReply 200 "ephemeral" "Unknown command"]
  /\ forall e, fst (handler body s) = Failed e -> e = HeadersSent.
Proof.
  intros Hfresh.
  destruct (bool_decide_reflect
              (body !! lit "command" = Some (lit "/sbhelp"))) as [Hcmd|Hcmd].
  - destruct (searchKnowledgeBase_run network anchors_of body_text
                toLowerCase (query_of (body !! lit "text")) (searcher s))
      as (results & w' & Hsearch & _).
    rewrite (slashCommand_sbhelp body s results w' Hcmd Hfresh Hsearch).
    cbn zeta. destruct (slack (calls s) _); [by split|].
    destruct (slack (calls s ++ _) _); [by split|].
    split; [done|]. by intros e [= <-].
  - by rewrite slashCommand_other.
Qed.

(** X19: A command other than [/sbhelp] starts no search and makes no call
    to Slack. *)
Theorem slashCommand_unknown (body : gmap jsstring jsstring) (s : server) :
  body !! lit "command" <> Some (lit "/sbhelp") ->
  replies s = [] ->
  searcher (snd (handler body s)) = searcher s
  /\ calls (snd (handler body s)) = calls s
  /\ fst (handler body s) = Done tt.
Proof. intros Hcmd Hfresh. by rewrite slashCommand_other. Qed.

Lemma message_call_blocks (channel text : option jsstring)
  (results : list searchResult) :
  (length results <= 5)%nat ->
  forall channel' text' blocks,
    call_data (message_call channel text results)
    = MessageData channel' text' (Some blocks) ->
    (length blocks <= 12)%nat.
Proof.
  intros Hlen channel' text' blocks. unfold message_call. cbn [call_data].
  destruct results as [|r rest]; [done|].
  intros [= _ _ <-]. rewrite length_result_blocks by done. lia.
Qed.

(** X20: For [/sbhelp] the search runs on the text sent, or on "getting
    started" when there is none, and its results are posted to the
    channel in one message, which names the text as it was sent and
    has at most 12 blocks.  Only when that call fails is a second one
    made, the apology to the user; and the handler fails exactly when
    both calls fail. *)
Theorem slashCommand_calls (body : gmap jsstring jsstring) (s : server) :
  body !! lit "command" = Some (lit "/sbhelp") ->
  replies s = [] ->
  exists results w' new,
    search (query_of (body !! lit "text")) (searcher s) = (Return results, w')
    /\ searcher (snd (handler body s)) = w'
    /\ calls (snd (handler body s)) = calls s ++ new
    /\ (let msg := message_call (body !! lit "channel_id")
                     (body !! lit "text") results in
        let apo := apology_call (body !! lit "channel_id")
                     (body !! lit "user_id") in
        (new = [(msg, true)] /\ fst (handler body s) = Done tt
         \/ new = [(msg, false); (apo, true)]
            /\ fst (handler body s) = Done tt
         \/ new = [(msg, false); (apo, false)]
            /\ fst (handler body s) = Failed HeadersSent)
        /\ forall channel text blocks,
             call_data msg = MessageData channel text (Some blocks) ->
             (length blocks <= 12)%nat).
Proof.
  intros Hcmd Hfresh.
  destruct (searchKnowledgeBase_run network anchors_of body_text
              toLowerCase (query_of (body !! lit "text")) (searcher s))
    as (results & w' & Hsearch & Hlen & _).
  rewrite (slashCommand_sbhelp body s results w' Hcmd Hfresh Hsearch).
  cbn zeta.
  pose proof (message_call_blocks (body !! lit "channel_id")
                (body !! lit "text") results Hlen) as Hblocks.
  destruct (slack (calls s) _) as [d|].
  - eexists results, w', _. repeat split; try done. by left.
  - destruct (slack (calls s ++ _) _) as [d|].
    + eexists results, w', _. repeat split; try done. right. by left.
    + eexists results, w', _. repeat split; try done. right. by right.
Qed.

End HandlerFacts.

(** ** The further properties at work *)


(** At 300 seconds a request is still fresh; at 301 it is stale. *)
Example verifySlackSignature_window_edge :
  result
    (verifySlackSignature Fixture.ToNumber Fixture.toString_utf8
       Fixture.URLSearchParams (Fixture.signed Fixture.signature)
       (Some Fixture.secret) 1700000300999)
  = Next.
Proof. by vm_compute. Qed.

Lemma verifySlackSignature_stale_iff_witness :
  StaleRequest
    (verifySlackSignature Fixture.ToNumber Fixture.toString_utf8
       Fixture.URLSearchParams (Fixture.signed Fixture.signature)
       (Some Fixture.secret) 1700000301000).
Proof.
  refine (proj2 (verifySlackSignature_stale_iff
                   Fixture.ToNumber Fixture.toString_utf8
                   Fixture.URLSearchParams (Fixture.signed Fixture.signature)
                   (Some Fixture.secret) 1700000301000
                   Fixture.signature (lit "1700000000")
                   (inject_Z 1700000000) _ _ _ _ _) _);
    first [ by vm_compute | discriminate ].
Defined.

Lemma verifySlackSignature_timestamp_not_a_number_witness :
  ~ StaleRequest
      (verifySlackSignature Fixture.ToNumber Fixture.toString_utf8
         Fixture.URLSearchParams
         (Request (<[lit "x-slack-signature" := Fixture.signature]>
                     (<[lit "x-slack-request-timestamp" := lit "yesterday"]>
                        ∅))
                  (Raw (Fixture.bytes Fixture.form)))
         (Some Fixture.secret) 1700000012345)
  /\ StaleRequest
       (verifySlackSignature (fun _ => Infinity false) Fixture.toString_utf8
          Fixture.URLSearchParams (Fixture.signed Fixture.signature)
          (Some Fixture.secret) 1700000012345).
Proof.
  split.
  - refine (proj1 (verifySlackSignature_timestamp_not_a_number
                     Fixture.ToNumber Fixture.toString_utf8
                     Fixture.URLSearchParams _ (Some Fixture.secret)
                     1700000012345 Fixture.signature (lit "yesterday")
                     _ _ _ _) _);
      first [ by vm_compute | discriminate ].
  - refine (proj2 (verifySlackSignature_timestamp_not_a_number
                     (fun _ => Infinity false) Fixture.toString_utf8
                     Fixture.URLSearchParams _ (Some Fixture.secret)
                     1700000012345 Fixture.signature (lit "1700000000")
                     _ _ _ _) false _);
      first [ by vm_compute | discriminate ].
Defined.

Lemma verifySlackSignature_empty_header_witness :
  MissingCredentials
    (verifySlackSignature Fixture.ToNumber Fixture.toString_utf8
       Fixture.URLSearchParams (Fixture.signed []) (Some Fixture.secret)
       1800000000000)
  /\ req_after
       (verifySlackSignature Fixture.ToNumber Fixture.toString_utf8
          Fixture.URLSearchParams (Fixture.signed []) (Some Fixture.secret)
          1800000000000)
     = Fixture.signed [].
Proof.
  apply (verifySlackSignature_empty_header
           Fixture.ToNumber Fixture.toString_utf8 Fixture.URLSearchParams
           (Fixture.signed []) (Some Fixture.secret) 1800000000000).
  left. by vm_compute.
Defined.

Lemma contentMatches_single_word_witness :
  contentMatches (lit "setup your workspace here") (lit "workspace") = true.
Proof.
  refine (proj2 (contentMatches_single_word
                   (lit "setup your workspace here") (lit "workspace") _) _).
  - intros H. repeat (destruct H as [H|H]; [discriminate|]). destruct H.
  - by exists (lit "setup your "), (lit " here").
Defined.

Lemma extractSnippet_shows_query_witness :
  occurs (lit "workspace")
    (extractSnippet (lit "  setup your workspace here ") (lit "workspace")).
Proof.
  apply (extractSnippet_shows_query
           (lit "  setup your workspace here ") (lit "workspace")
           119%N 101%N (lit "orkspace") (lit "workspac"));
    try reflexivity.
  - simpl. lia.
  - by exists (lit "  setup your "), (lit " here ").
Defined.

Lemma discoverArticles_wellformed_witness :
  (3 < length (lit "Guide alpha"))%nat
  /\ (forall c t, lit "Guide alpha" = c :: t -> isWhiteSpace c = false)
  /\ (forall t c, lit "Guide alpha" = t ++ [c] -> isWhiteSpace c = false)
  /\ occurs (lit "/knowledge-base/") Fixture.alpha_url
  /\ Fixture.alpha_url <> baseUrl.
Proof.
  apply (discoverArticles_wellformed Fixture.anchors_of Fixture.landing
           (Article (lit "Guide alpha") Fixture.alpha_url)).
  vm_compute. by left.
Defined.

(** The world after a first crawl of the site. *)
Definition warmed : world :=
  snd (searchArticles Fixture.online Fixture.body_text Fixture.toLowerCase
         Fixture.alpha_twice (lit "Nothing") Fixture.fresh).

Lemma warmed_cached (a : article) :
  In a (take 10 Fixture.alpha_twice) -> is_Some (cache warmed !! url a).
Proof.
  intros [<-|[<-|[]]]; vm_compute; by eexists.
Qed.

Lemma searchArticles_warm_witness :
  searchArticles Fixture.offline Fixture.body_text Fixture.toLowerCase
    Fixture.alpha_twice (lit "Nothing") warmed
  = (Return (take 5 (omap (hit_result (cache warmed)
                             (Fixture.toLowerCase (lit "Nothing")))
                       (take 10 Fixture.alpha_twice))),
     World (cache warmed) (requests warmed) (logged warmed)
           (delays warmed
            ++ repeat 500 (Nat.min 10 (length Fixture.alpha_twice)))).
Proof.
  apply (searchArticles_warm Fixture.offline Fixture.body_text
           Fixture.toLowerCase Fixture.alpha_twice (lit "Nothing") warmed).
  exact warmed_cached.
Defined.

(** The results of that first crawl. *)
Definition first_results : list searchResult :=
  match fst (searchArticles Fixture.online Fixture.body_text
               Fixture.toLowerCase Fixture.alpha_twice (lit "Nothing")
               Fixture.fresh) with
  | Return results => results
  | Throw _ => []
  end.

Lemma searchArticles_repeat_witness :
  searchArticles Fixture.online Fixture.body_text Fixture.toLowerCase
    Fixture.alpha_twice (lit "Nothing") warmed
  = (Return first_results,
     World (cache warmed) (requests warmed) (logged warmed)
           (delays warmed
            ++ repeat 500 (Nat.min 10 (length Fixture.alpha_twice)))).
Proof.
  apply (searchArticles_repeat Fixture.online Fixture.body_text
           Fixture.toLowerCase Fixture.alpha_twice (lit "Nothing")
           Fixture.fresh warmed first_results); by vm_compute.
Defined.

Example first_results_are :
  first_results
  = [SearchResult (lit "Guide alpha") Fixture.alpha_url
       (lit "nothing to see here...");
     SearchResult (lit "Alpha, again") Fixture.alpha_url
       (lit "nothing to see here...")].
Proof. by vm_compute. Qed.

Lemma slashCommand_one_reply_witness :
  replies
    (snd (slashCommand Fixture.online Fixture.anchors_of Fixture.body_text
            Fixture.toLowerCase Fixture.slack_down Fixture.token
            Fixture.command Fixture.idle))
  = [if bool_decide (Fixture.command !! lit "command" = Some (lit "/sbhelp"))
     then acknowledged
     else JsonReply 200 "ephemeral" "Unknown command"]
  /\ forall e,
       fst (slashCommand Fixture.online Fixture.anchors_of Fixture.body_text
              Fixture.toLowerCase Fixture.slack_down Fixture.token
              Fixture.command Fixture.idle)
       = Failed e ->
       e = HeadersSent.
Proof.
  apply (slashCommand_one_reply Fixture.online Fixture.anchors_of
           Fixture.body_text Fixture.toLowerCase Fixture.slack_down
           Fixture.token Fixture.command Fixture.idle).
  reflexivity.
Defined.

Lemma slashCommand_unknown_witness :
  searcher
    (snd (slashCommand Fixture.online Fixture.anchors_of Fixture.body_text
            Fixture.toLowerCase Fixture.slack_up Fixture.token
            Fixture.other_command Fixture.idle))
  = searcher Fixture.idle
  /\ calls
       (snd (slashCommand Fixture.online Fixture.anchors_of Fixture.body_text
               Fixture.toLowerCase Fixture.slack_up Fixture.token
               Fixture.other_command Fixture.idle))
     = calls Fixture.idle
  /\ fst (slashCommand Fixture.online Fixture.anchors_of Fixture.body_text
            Fixture.toLowerCase Fixture.slack_up Fixture.token
            Fixture.other_command Fixture.idle)
     = Done tt.
Proof.
  apply (slashCommand_unknown Fixture.online Fixture.anchors_of
           Fixture.body_text Fixture.toLowerCase Fixture.slack_up
           Fixture.token Fixture.other_command Fixture.idle);
    [by vm_compute | reflexivity].
Defined.

Lemma slashCommand_calls_witness :
  exists results w' new,
    searchKnowledgeBase Fixture.online Fixture.anchors_of Fixture.body_text
      Fixture.toLowerCase (query_of (Fixture.command !! lit "text"))
      (searcher Fixture.idle)
    = (Return results, w')
    /\ searcher
         (snd (slashCommand Fixture.online Fixture.anchors_of
                 Fixture.body_text Fixture.toLowerCase Fixture.slack_flaky
                 Fixture.token Fixture.command Fixture.idle))
       = w'
    /\ calls
         (snd (slashCommand Fixture.online Fixture.anchors_of
                 Fixture.body_text Fixture.toLowerCase Fixture.slack_flaky
                 Fixture.token Fixture.command Fixture.idle))
       = calls Fixture.idle ++ new
    /\ (let msg := message_call Fixture.token
                     (Fixture.command !! lit "channel_id")
                     (Fixture.command !! lit "text") results in
        let apo := apology_call Fixture.token
                     (Fixture.command !! lit "channel_id")
                     (Fixture.command !! lit "user_id") in
        (new = [(msg, true)]
         /\ fst (slashCommand Fixture.online Fixture.anchors_of
                   Fixture.body_text Fixture.toLowerCase Fixture.slack_flaky
                   Fixture.token Fixture.command Fixture.idle)
            = Done tt
         \/ new = [(msg, false); (apo, true)]
            /\ fst (slashCommand Fixture.online Fixture.anchors_of
                      Fixture.body_text Fixture.toLowerCase
                      Fixture.slack_flaky Fixture.token Fixture.command
                      Fixture.idle)
               = Done tt
         \/ new = [(msg, false); (apo, false)]
            /\ fst (slashCommand Fixture.online Fixture.anchors_of
                      Fixture.body_text Fixture.toLowerCase
                      Fixture.slack_flaky Fixture.token Fixture.command
                      Fixture.idle)
               = Failed HeadersSent)
        /\ forall channel text blocks,
             call_data msg = MessageData channel text (Some blocks) ->
             (length blocks <= 12)%nat).
Proof.
  apply (slashCommand_calls Fixture.online Fixture.anchors_of
           Fixture.body_text Fixture.toLowerCase Fixture.slack_flaky
           Fixture.token Fixture.command Fixture.idle);
    [by vm_compute | reflexivity].
Defined.

(** The scenario of a command, end to end: the acknowledgement, then
    one message with the two results of the search in six blocks. *)
Example slashCommand_scenario :
  let run :=
    slashCommand Fixture.online Fixture.anchors_of Fixture.body_text
      Fixture.toLowerCase Fixture.slack_up Fixture.token Fixture.command
      Fixture.idle in
  fst run = Done tt
  /\ replies (snd run) = [acknowledged]
  /\ map (fun c => (call_url (fst c), call_data (fst c), snd c))
         (calls (snd run))
     = [(lit "https://slack.com/api/chat.postMessage",
         MessageData (Some (lit "C061"))
           (lit "Found 2 results for " ++ dquote ++ lit "Workspace Settings"
            ++ dquote)
           (Some
              [SectionBlock
                 (lit "*SessionBoard Knowledge Base Results for " ++ dquote
                  ++ lit "Workspace Settings" ++ dquote ++ lit "*");
               DividerBlock;
               SectionBlock
                 (lit "*<https://learn.sessionboard.com/en/knowledge-base/charlie|Guide charlie>*"
                  ++ [10%N] ++ lit "Click to read more...");
               DividerBlock;
               SectionBlock
                 (lit "*<https://learn.sessionboard.com/en/knowledge-base/hotel|Guide hotel>*"
                  ++ [10%N] ++ lit "all workspace settings explained...");
               ContextBlock
                 [lit "Use `/sbhelp [your question]` to search again"]]),
         true)].
Proof. by vm_compute. Qed.

(** A command without text is searched as "getting started" and
    answered about "undefined". *)
Example slashCommand_without_text :
  query_of (Fixture.bare_command !! lit "text") = lit "getting started"
  /\ map (fun c => call_data (fst c))
         (calls
            (snd (slashCommand Fixture.online Fixture.anchors_of
                    Fixture.body_text Fixture.toLowerCase Fixture.slack_up
                    Fixture.token Fixture.bare_command Fixture.idle)))
     = [MessageData None
          (lit "No results found for " ++ dquote ++ lit "undefined" ++ dquote
           ++ lit ". Try searching for general topics like " ++ dquote
           ++ lit "getting started" ++ dquote ++ lit ", " ++ dquote
           ++ lit "setup" ++ dquote ++ lit ", or " ++ dquote
           ++ lit "features" ++ dquote ++ lit ".")
          None].
Proof. by vm_compute. Qed.

(** ** The parsed fields *)

Lemma Object_fromEntries_snoc (pairs : list (jsstring * jsstring))
  (k v : jsstring) :
  Object_fromEntries (pairs ++ [(k, v)])
  = <[k := v]> (Object_fromEntries pairs).
Proof. unfold Object_fromEntries. by rewrite fold_left_app. Qed.


